(** * Fokus Pomodoro: the timer engine of [src/components/Timer.ts]

    A shallow embedding of the [PomodoroTimer] class together with the part
    of the browser it talks to: the [window] scheduler ([setInterval],
    [setTimeout], [clearInterval]) and the stream of [timerUpdate] events.

    Conventions.
    - JavaScript numbers that the timer handles are integers (minutes,
      seconds, counters, handles); they are modelled by [Z].  The one
      fractional quantity, [progress], is modelled by an exact rational.
    - An arithmetic result that JavaScript would report as [NaN] or as an
      infinity is [None].
    - Every method is a function on [World]: the timer object, the scheduler
      of the window and the log of dispatched events. *)

From Stdlib Require Import ZArith QArith List Bool Lia.
From Stdlib Require String Ascii DecimalString.
Import ListNotations.

Open Scope Z_scope.

(* ------------------------------------------------------------------ *)
(** ** utils/constants.ts *)

Inductive SessionType : Type := WORK | SHORT_BREAK | LONG_BREAK.

Inductive TimerState : Type := IDLE | RUNNING | PAUSED | COMPLETED.

Record Settings : Type := mkSettings {
  workDuration : Z;            (* minutes *)
  shortBreak : Z;              (* minutes *)
  longBreak : Z;               (* minutes *)
  sessionsUntilLongBreak : Z;
  autoStartBreaks : bool;
  soundEnabled : bool
}.

Definition DEFAULT_SETTINGS : Settings :=
  {| workDuration := 25;
     shortBreak := 5;
     longBreak := 15;
     sessionsUntilLongBreak := 4;
     autoStartBreaks := false;
     soundEnabled := true |}.

(** [Partial<Settings>]: every key may be absent. *)
Record PartialSettings : Type := mkPartial {
  p_workDuration : option Z;
  p_shortBreak : option Z;
  p_longBreak : option Z;
  p_sessionsUntilLongBreak : option Z;
  p_autoStartBreaks : option bool;
  p_soundEnabled : option bool
}.

Definition orKeep {A : Type} (new : option A) (old : A) : A :=
  match new with
  | Some v => v
  | None => old
  end.

(** The object spread [{ ...base, ...p }]. *)
Definition spread (base : Settings) (p : PartialSettings) : Settings :=
  {| workDuration := orKeep (p_workDuration p) (workDuration base);
     shortBreak := orKeep (p_shortBreak p) (shortBreak base);
     longBreak := orKeep (p_longBreak p) (longBreak base);
     sessionsUntilLongBreak :=
       orKeep (p_sessionsUntilLongBreak p) (sessionsUntilLongBreak base);
     autoStartBreaks := orKeep (p_autoStartBreaks p) (autoStartBreaks base);
     soundEnabled := orKeep (p_soundEnabled p) (soundEnabled base) |}.

Definition SessionType_eqb (a b : SessionType) : bool :=
  match a, b with
  | WORK, WORK | SHORT_BREAK, SHORT_BREAK | LONG_BREAK, LONG_BREAK => true
  | _, _ => false
  end.

Definition TimerState_eqb (a b : TimerState) : bool :=
  match a, b with
  | IDLE, IDLE | RUNNING, RUNNING | PAUSED, PAUSED | COMPLETED, COMPLETED => true
  | _, _ => false
  end.

(* ------------------------------------------------------------------ *)
(** ** JavaScript arithmetic on integers *)

Module JsNum.

(** [a % b]: the remainder takes the sign of the dividend; [NaN] when the
    divisor is zero. *)
Definition rem (a b : Z) : option Z :=
  if b =? 0 then None else Some (Z.rem a b).

(** [a / b]: not a finite number when the divisor is zero. *)
Definition div (a b : Z) : option Q :=
  if b =? 0 then None else Some (inject_Z a / inject_Z b)%Q.

(** [x * k] where [x] may already be non-finite. *)
Definition scale (x : option Q) (k : Z) : option Q :=
  option_map (fun q => (q * inject_Z k)%Q) x.

(** [x === k] for an integer constant [k]; [NaN === k] is false. *)
Definition strictEq (x : option Z) (k : Z) : bool :=
  match x with
  | Some v => v =? k
  | None => false
  end.

End JsNum.

(* ------------------------------------------------------------------ *)
(** ** The timer object, the events and the window *)

Module TimerEventData.
Record t : Type := mk {
  timeRemaining : Z;
  sessionType : SessionType;
  state : TimerState;
  sessionsCompleted : Z;
  progress : option Q
}.
End TimerEventData.

(** The private fields of [PomodoroTimer]. *)
Record Timer : Type := mkTimer {
  timeRemaining : Z;
  sessionType : SessionType;
  state : TimerState;
  sessionsCompleted : Z;
  intervalId : option Z;
  settings : Settings
}.

(** What the timer hands to the scheduler: the interval of [start] runs
    [tick], the timeout of [completeSession] runs [advanceToNextSession]. *)
Inductive Callback : Type :=
| TickEverySecond
| AdvanceOnce.

Record Task : Type := mkTask {
  task_id : Z;
  task_due : Z;                (* milliseconds *)
  task_cb : Callback
}.

Record World : Type := mkWorld {
  timer : Timer;
  now : Z;                     (* milliseconds *)
  nextId : Z;                  (* next handle of setInterval / setTimeout *)
  tasks : list Task;           (* armed intervals and timeouts, oldest first *)
  events : list TimerEventData.t   (* dispatched timerUpdate events, oldest first *)
}.

Definition set_timeRemaining (v : Z) (t : Timer) : Timer :=
  mkTimer v (sessionType t) (state t) (sessionsCompleted t) (intervalId t) (settings t).

Definition set_sessionType (v : SessionType) (t : Timer) : Timer :=
  mkTimer (timeRemaining t) v (state t) (sessionsCompleted t) (intervalId t) (settings t).

Definition set_state (v : TimerState) (t : Timer) : Timer :=
  mkTimer (timeRemaining t) (sessionType t) v (sessionsCompleted t) (intervalId t) (settings t).

Definition set_sessionsCompleted (v : Z) (t : Timer) : Timer :=
  mkTimer (timeRemaining t) (sessionType t) (state t) v (intervalId t) (settings t).

Definition set_intervalId (v : option Z) (t : Timer) : Timer :=
  mkTimer (timeRemaining t) (sessionType t) (state t) (sessionsCompleted t) v (settings t).

Definition set_settings (v : Settings) (t : Timer) : Timer :=
  mkTimer (timeRemaining t) (sessionType t) (state t) (sessionsCompleted t) (intervalId t) v.

(** Update of [this]. *)
Definition this_ (f : Timer -> Timer) (w : World) : World :=
  mkWorld (f (timer w)) (now w) (nextId w) (tasks w) (events w).

(** [window.setInterval(cb, 1000)] and [setTimeout(cb, 1000)]: a fresh
    handle, first due one second from now. *)
Definition schedule (cb : Callback) (w : World) : Z * World :=
  (nextId w,
   mkWorld (timer w) (now w) (nextId w + 1)
           (tasks w ++ [mkTask (nextId w) (now w + 1000) cb]) (events w)).

(** [window.clearInterval(id)]. *)
Definition cancel (id : Z) (w : World) : World :=
  mkWorld (timer w) (now w) (nextId w)
          (filter (fun k => negb (task_id k =? id)) (tasks w)) (events w).

Definition emit (e : TimerEventData.t) (w : World) : World :=
  mkWorld (timer w) (now w) (nextId w) (tasks w) (events w ++ [e]).

(** The armed 1 Hz tick sources. *)
Definition tickSources (w : World) : list Task :=
  filter (fun k => match task_cb k with TickEverySecond => true | AdvanceOnce => false end)
         (tasks w).

(** The deferred auto-advances that have not fired yet. *)
Definition pendingAdvances (w : World) : list Task :=
  filter (fun k => match task_cb k with AdvanceOnce => true | TickEverySecond => false end)
         (tasks w).

(* ------------------------------------------------------------------ *)
(** ** components/Timer.ts *)

Definition getCurrentSessionDuration (t : Timer) : Z :=
  match sessionType t with
  | WORK => workDuration (settings t)
  | SHORT_BREAK => shortBreak (settings t)
  | LONG_BREAK => longBreak (settings t)
  end.

Definition getNextSessionType (t : Timer) : SessionType :=
  match sessionType t with
  | WORK =>
      (* After work, check if it's time for long break *)
      if JsNum.strictEq (JsNum.rem (sessionsCompleted t) (sessionsUntilLongBreak (settings t))) 0
      then LONG_BREAK
      else SHORT_BREAK
  | _ =>
      (* After any break, return to work *)
      WORK
  end.

Definition clearInterval (w : World) : World :=
  match intervalId (timer w) with
  | Some id => this_ (set_intervalId None) (cancel id w)
  | None => w
  end.

(** The [progress] expression of [dispatchTimerEvent]. *)
Definition progressOf (totalDuration remaining : Z) : option Q :=
  if totalDuration >? 0
  then JsNum.scale (JsNum.div (totalDuration - remaining) totalDuration) 100
  else Some 0%Q.

Definition eventData (t : Timer) : TimerEventData.t :=
  let totalDuration := getCurrentSessionDuration t * 60 in
  let progress := progressOf totalDuration (timeRemaining t) in
  TimerEventData.mk (timeRemaining t) (sessionType t) (state t)
                    (sessionsCompleted t) progress.

Definition dispatchTimerEvent (w : World) : World :=
  emit (eventData (timer w)) w.

Definition start (w : World) : World :=
  let w :=
    if TimerState_eqb (state (timer w)) IDLE
    then this_ (set_timeRemaining (getCurrentSessionDuration (timer w) * 60)) w
    else w in
  let w := this_ (set_state RUNNING) w in
  let '(id, w) := schedule TickEverySecond w in
  let w := this_ (set_intervalId (Some id)) w in
  dispatchTimerEvent w.

Definition pause (w : World) : World :=
  if TimerState_eqb (state (timer w)) RUNNING
  then
    let w := this_ (set_state PAUSED) w in
    let w := clearInterval w in
    dispatchTimerEvent w
  else w.

Definition resume (w : World) : World :=
  if TimerState_eqb (state (timer w)) PAUSED then start w else w.

Definition reset (w : World) : World :=
  let w := this_ (set_state IDLE) w in
  let w := clearInterval w in
  let w := this_ (set_timeRemaining (getCurrentSessionDuration (timer w) * 60)) w in
  dispatchTimerEvent w.

Definition updateSettings (newSettings : PartialSettings) (w : World) : World :=
  let w := this_ (set_settings (spread (settings (timer w)) newSettings)) w in
  if TimerState_eqb (state (timer w)) IDLE
  then
    let w := this_ (set_timeRemaining (getCurrentSessionDuration (timer w) * 60)) w in
    dispatchTimerEvent w
  else w.

Definition completeSession (w : World) : World :=
  let w := this_ (set_state COMPLETED) w in
  let w := clearInterval w in
  let w :=
    if SessionType_eqb (sessionType (timer w)) WORK
    then this_ (set_sessionsCompleted (sessionsCompleted (timer w) + 1)) w
    else w in
  let w := dispatchTimerEvent w in
  (* Auto-advance to next session *)
  snd (schedule AdvanceOnce w).

Definition skip (w : World) : World := completeSession w.

Definition tick (w : World) : World :=
  let w := this_ (set_timeRemaining (timeRemaining (timer w) - 1)) w in
  if timeRemaining (timer w) <=? 0
  then completeSession w
  else dispatchTimerEvent w.

Definition advanceToNextSession (w : World) : World :=
  let w := this_ (set_sessionType (getNextSessionType (timer w))) w in
  let w := this_ (set_timeRemaining (getCurrentSessionDuration (timer w) * 60)) w in
  let w := this_ (set_state IDLE) w in
  if autoStartBreaks (settings (timer w))
     && negb (SessionType_eqb (sessionType (timer w)) WORK)
  then start w
  else dispatchTimerEvent w.

(** The field initialisers of the class. *)
Definition initialTimer : Timer :=
  {| timeRemaining := 0;
     sessionType := WORK;
     state := IDLE;
     sessionsCompleted := 0;
     intervalId := None;
     settings := DEFAULT_SETTINGS |}.

(** A page in which nothing is scheduled yet. *)
Definition freshWindow (t : Timer) : World :=
  mkWorld t 0 1 [] [].

(** [new PomodoroTimer(settings?)]. *)
Definition newPomodoroTimer (settings : option PartialSettings) : World :=
  let w := freshWindow initialTimer in
  let w :=
    match settings with
    | Some s => updateSettings s w
    | None => w
    end in
  reset w.

(* ------------------------------------------------------------------ *)
(** ** The clock of the window

    Time passes by firing the armed tasks in the order they fall due.  An
    interval is re-armed one second later before its callback runs, so a
    callback that clears it does cancel it; a timeout is removed. *)

Definition earlier (a b : Task) : Task :=
  if task_due b <? task_due a then b else a.

(** The task that falls due first at or before [target]; the oldest one
    among those due at the same instant. *)
Definition nextDue (target : Z) (l : list Task) : option Task :=
  match filter (fun k => task_due k <=? target) l with
  | [] => None
  | k :: ks => Some (fold_left earlier ks k)
  end.

Definition rearm (id : Z) (l : list Task) : list Task :=
  map (fun k => if task_id k =? id
                then mkTask (task_id k) (task_due k + 1000) (task_cb k)
                else k) l.

Definition fire (k : Task) (w : World) : World :=
  match task_cb k with
  | TickEverySecond =>
      tick (mkWorld (timer w) (task_due k) (nextId w)
                    (rearm (task_id k) (tasks w)) (events w))
  | AdvanceOnce =>
      advanceToNextSession
        (mkWorld (timer w) (task_due k) (nextId w)
                 (filter (fun j => negb (task_id j =? task_id k)) (tasks w))
                 (events w))
  end.

(** Run every task due up to [target]; [None] when [fuel] callbacks were
    not enough to get there. *)
Fixpoint runTimers (fuel : nat) (target : Z) (w : World) : option World :=
  match nextDue target (tasks w) with
  | None => Some (mkWorld (timer w) target (nextId w) (tasks w) (events w))
  | Some k =>
      match fuel with
      | O => None
      | S fuel' => runTimers fuel' target (fire k w)
      end
  end.

(** Let [ms] milliseconds pass.  Every task has a period or delay of one
    second and a callback replaces at most the task it cancels, which
    bounds the number of callbacks. *)
Definition advanceClock (ms : Z) (w : World) : option World :=
  runTimers (length (tasks w) * S (Z.to_nat (ms / 1000))) (now w + ms) w.


(** Observation of the timer after a run. *)
Definition observe {A : Type} (f : Timer -> A) (w : option World) : option A :=
  option_map (fun w => f (timer w)) w.

(* ------------------------------------------------------------------ *)
(** ** Settings validity, as the data model states it *)

Definition validSettings (s : Settings) : Prop :=
  0 < workDuration s /\ 0 < shortBreak s /\ 0 < longBreak s
  /\ 1 <= sessionsUntilLongBreak s.

Definition okOrAbsent (lo : Z) (v : option Z) : Prop :=
  match v with
  | Some x => lo <= x
  | None => True
  end.

Definition validPartial (p : PartialSettings) : Prop :=
  okOrAbsent 1 (p_workDuration p) /\ okOrAbsent 1 (p_shortBreak p)
  /\ okOrAbsent 1 (p_longBreak p) /\ okOrAbsent 1 (p_sessionsUntilLongBreak p).

(** The duration, in minutes, that settings [s] give to session type [ty]. *)
Definition durationOf (s : Settings) (ty : SessionType) : Z :=
  match ty with
  | WORK => workDuration s
  | SHORT_BREAK => shortBreak s
  | LONG_BREAK => longBreak s
  end.

(** The session types reached by completing [n] sessions in a row, each
    followed by its deferred advance. *)
Fixpoint sessionsAfter (n : nat) (w : World) : list SessionType :=
  match n with
  | O => []
  | S n' =>
      let w' := advanceToNextSession (completeSession w) in
      sessionType (timer w') :: sessionsAfter n' w'
  end.

(* ------------------------------------------------------------------ *)
(** ** components/Controls.ts *)

(** The click on the start/pause button (and the space bar). *)
Definition handleStartPauseClick (w : World) : World :=
  match state (timer w) with
  | IDLE | PAUSED => start w
  | RUNNING => pause w
  | COMPLETED => w
  end.

(* ------------------------------------------------------------------ *)
(** ** The timer in use

    What can happen to a timer between two observations: a method is called
    on it, an armed task of the window fires, or time passes. *)

Inductive Call : Type :=
| CallStart
| CallPause
| CallResume
| CallReset
| CallSkip
| CallUpdateSettings (p : PartialSettings)
| CallClick.

Definition perform (c : Call) (w : World) : World :=
  match c with
  | CallStart => start w
  | CallPause => pause w
  | CallResume => resume w
  | CallReset => reset w
  | CallSkip => skip w
  | CallUpdateSettings p => updateSettings p w
  | CallClick => handleStartPauseClick w
  end.

Definition anyCall (c : Call) (w : World) : bool := true.

(** The calls of a careful user: [start] only on an IDLE or PAUSED timer, as
    the start/pause button does, and neither [reset] nor [skip] between a
    completion and its deferred advance. *)
Definition carefulCall (c : Call) (w : World) : bool :=
  match c with
  | CallStart =>
      TimerState_eqb (state (timer w)) IDLE
      || TimerState_eqb (state (timer w)) PAUSED
  | CallReset | CallSkip => negb (TimerState_eqb (state (timer w)) COMPLETED)
  | _ => true
  end.

Definition atTime (t : Z) (w : World) : World :=
  mkWorld (timer w) t (nextId w) (tasks w) (events w).

Inductive Reaches (ok : Call -> World -> bool) (w : World) : World -> Prop :=
| reach_here : Reaches ok w w
| reach_call (w' : World) (c : Call) :
    Reaches ok w w' -> ok c w' = true -> Reaches ok w (perform c w')
| reach_fire (w' : World) (k : Task) :
    Reaches ok w w' -> In k (tasks w') -> Reaches ok w (fire k w')
| reach_wait (w' : World) (t : Z) :
    Reaches ok w w' -> Reaches ok w (atTime t w').

(** A window in which the timer owns exactly what its state calls for: one
    interval, the recorded one, while RUNNING; one deferred advance while
    COMPLETED; nothing otherwise. *)
Definition tidy (w : World) : bool :=
  match state (timer w), intervalId (timer w), tasks w with
  | RUNNING, Some id, [k] =>
      (task_id k =? id)
      && match task_cb k with TickEverySecond => true | AdvanceOnce => false end
  | COMPLETED, None, [k] =>
      match task_cb k with AdvanceOnce => true | TickEverySecond => false end
  | IDLE, None, [] => true
  | PAUSED, None, [] => true
  | _, _, _ => false
  end.

(* ------------------------------------------------------------------ *)
(** ** components/Statistics.ts: what the listener reads in an event *)

(** The test of [handleTimerUpdate] for recording a completed session. *)
Definition isCompletedWork (e : TimerEventData.t) : bool :=
  TimerState_eqb (TimerEventData.state e) COMPLETED
  && SessionType_eqb (TimerEventData.sessionType e) WORK.

(** How many of the events dispatched so far pass that test. *)
Definition recordedWorkSessions (w : World) : nat :=
  length (filter isCompletedWork (events w)).

(* ------------------------------------------------------------------ *)
(** ** JavaScript text

    Numbers are printed in decimal, with a minus sign when negative.  The
    texts built here (clock faces, dates) are ASCII. *)

Module JsText.
Import String.
Local Open Scope string_scope.

(** [n.toString()] for an integer [n]. *)
Definition toString (n : Z) : string :=
  DecimalString.NilZero.string_of_int (Z.to_int n).

Fixpoint fill (n : nat) (c : Ascii.ascii) : string :=
  match n with
  | O => EmptyString
  | S n' => String c (fill n' c)
  end.

(** [s.padStart(target, c)] for a filler [c] of one character. *)
Definition padStart (target : nat) (c : Ascii.ascii) (s : string) : string :=
  fill (target - length s) c ++ s.

End JsText.

(* ------------------------------------------------------------------ *)
(** ** components/Display.ts *)

Module Display.
Import String Ascii.
Local Open Scope string_scope.

Definition formatTime (totalSeconds : Z) : string :=
  let minutes := totalSeconds / 60 in              (* Math.floor *)
  let seconds := Z.rem totalSeconds 60 in
  JsText.padStart 2 "0"%char (JsText.toString minutes)
  ++ ":" ++ JsText.padStart 2 "0"%char (JsText.toString seconds).

(** The digit [d] (0 to 9) as a character. *)
Definition digit (d : Z) : Ascii.ascii := Ascii.ascii_of_nat (48 + Z.to_nat d).

(** Reading a clock face of two digits, a colon and two digits back. *)
Definition digitValue (c : Ascii.ascii) : Z := Z.of_nat (Ascii.nat_of_ascii c) - 48.

Definition readClock (s : string) : option Z :=
  match s with
  | String a (String b (String ":"%char (String c (String d EmptyString)))) =>
      Some ((digitValue a * 10 + digitValue b) * 60
            + (digitValue c * 10 + digitValue d))
  | _ => None
  end.

End Display.

(* ------------------------------------------------------------------ *)
(** ** components/Statistics.ts

    The persistent store is left out: [historyStreak] stands for what
    [loadStreakFromHistory] returns during the call (both readers of the
    history run before the statistics are saved), [today] for
    [getTodayString()] and [workDuration] for the timer's current setting. *)

Module Statistics.
Import String.

Record DailyStats : Type := mkDailyStats {
  date : string;
  sessionsCompleted : Z;
  focusTimeMinutes : Z;
  streak : Z
}.

Definition calculateCurrentStreak (historyStreak : Z) (d : DailyStats) : Z :=
  if sessionsCompleted d >? 0 then historyStreak + 1 else historyStreak.

Definition recordCompletedSession
           (today : string) (historyStreak workDuration : Z) (d : DailyStats)
  : DailyStats :=
  let d :=
    if negb (String.eqb (date d) today)
    then mkDailyStats today 0 0 historyStreak      (* New day, reset stats *)
    else d in
  let d := mkDailyStats (date d) (sessionsCompleted d + 1)
                        (focusTimeMinutes d) (streak d) in
  let d := mkDailyStats (date d) (sessionsCompleted d)
                        (focusTimeMinutes d + workDuration) (streak d) in
  mkDailyStats (date d) (sessionsCompleted d) (focusTimeMinutes d)
               (calculateCurrentStreak historyStreak d).

Definition updateSessionsFromTimer (count : Z) (d : DailyStats) : DailyStats :=
  if negb (sessionsCompleted d =? count)
  then mkDailyStats (date d) count (focusTimeMinutes d) (streak d)
  else d.

Definition handleTimerUpdate
           (today : string) (historyStreak workDuration : Z)
           (e : TimerEventData.t) (d : DailyStats) : DailyStats :=
  let d :=
    if TimerState_eqb (TimerEventData.state e) COMPLETED
       && SessionType_eqb (TimerEventData.sessionType e) WORK
    then recordCompletedSession today historyStreak workDuration d
    else d in
  updateSessionsFromTimer (TimerEventData.sessionsCompleted e) d.

(** One listener call after the other, each with the history streak and the
    work duration of its moment. *)
Fixpoint replay (today : string) (calls : list (Z * Z * TimerEventData.t))
         (d : DailyStats) : DailyStats :=
  match calls with
  | [] => d
  | (historyStreak, workDuration, e) :: rest =>
      replay today rest (handleTimerUpdate today historyStreak workDuration e d)
  end.

End Statistics.

(* ------------------------------------------------------------------ *)
(** ** components/TodoList.ts: the settings form

    A number field is modelled by what [parseInt] reads in its [value],
    [min] and [max]; [None] is [NaN].  Writing [n.toString()] into a field
    makes [parseInt] read [n] there. *)

Module SettingsManager.

Record Input : Type := mkInput {
  value : option Z;
  min : option Z;
  max : option Z
}.

(** [a < b] and [a > b] on what may be [NaN]: false as soon as one is. *)
Definition lt (a b : option Z) : bool :=
  match a, b with
  | Some x, Some y => x <? y
  | _, _ => false
  end.

Definition gt (a b : option Z) : bool := lt b a.

Definition isNaN (a : option Z) : bool :=
  match a with
  | Some _ => false
  | None => true
  end.

Definition validateInput (input : Input) : Input :=
  if isNaN (value input) || lt (value input) (min input)
  then mkInput (min input) (min input) (max input)
  else if gt (value input) (max input)
       then mkInput (max input) (min input) (max input)
       else input.

Record Form : Type := mkForm {
  workDurationInput : Input;
  shortBreakInput : Input;
  longBreakInput : Input;
  autoStartInput : bool;       (* checked *)
  soundEnabledInput : bool     (* checked *)
}.

(** The settings object of [saveAndApplySettings] and [getSettings];
    [None] when a duration reads as [NaN], which the integer settings of
    the timer cannot hold. *)
Definition readSettings (f : Form) : option Settings :=
  match value (workDurationInput f), value (shortBreakInput f),
        value (longBreakInput f) with
  | Some w, Some s, Some l =>
      Some (mkSettings w s l (sessionsUntilLongBreak DEFAULT_SETTINGS)
                       (autoStartInput f) (soundEnabledInput f))
  | _, _, _ => None
  end.

Definition toPartial (s : Settings) : PartialSettings :=
  mkPartial (Some (workDuration s)) (Some (shortBreak s)) (Some (longBreak s))
            (Some (sessionsUntilLongBreak s)) (Some (autoStartBreaks s))
            (Some (soundEnabled s)).

(** [saveAndApplySettings]: the validated form, and the window after
    [timer.updateSettings(settings)]. *)
Definition saveAndApplySettings (f : Form) (w : World) : Form * option World :=
  let f := mkForm (validateInput (workDurationInput f))
                  (validateInput (shortBreakInput f))
                  (validateInput (longBreakInput f))
                  (autoStartInput f) (soundEnabledInput f) in
  (f, option_map (fun s => updateSettings (toPartial s) w) (readSettings f)).

End SettingsManager.

(* ------------------------------------------------------------------ *)
(** ** utils/todoStorage.ts

    A JavaScript string is the list of its UTF-16 code units.  [Date.now()]
    and the identifier that [generateId] draws are handed in by the caller.
    A storage slot holds nothing, something [JSON.parse] rejects, or the
    data that [saveTodos] wrote; writing to a slot always succeeds. *)

Module TodoStorage.

Definition JsString : Type := list N.

Definition JsString_eqb (a b : JsString) : bool :=
  if list_eq_dec N.eq_dec a b then true else false.

(** White space and line terminators of the language, which [trim] strips. *)
Definition isWhiteSpace (c : N) : bool :=
  existsb (N.eqb c)
          [9; 10; 11; 12; 13; 32; 160; 5760; 8232; 8233; 8239; 8287; 12288;
           65279]%N
  || ((8192 <=? c) && (c <=? 8202))%N.

Fixpoint trimStart (s : JsString) : JsString :=
  match s with
  | c :: rest => if isWhiteSpace c then trimStart rest else s
  | [] => []
  end.

Definition trim (s : JsString) : JsString :=
  rev (trimStart (rev (trimStart s))).

Record TodoItem : Type := mkTodo {
  id : JsString;
  text : JsString;
  completed : bool;
  createdAt : Z
}.

Record TodoStorageData : Type := mkData {
  todos : list TodoItem;
  expiresAt : Z
}.

Inductive Slot : Type :=
| Absent
| Unreadable
| Saved (d : TodoStorageData).

(** The object with its [todos] field, and the two storages of the page
    under the key [fokus_todos]. *)
Record Store : Type := mkStore {
  memory : list TodoItem;
  sessionSlot : Slot;
  localSlot : Slot
}.

Definition CACHE_DURATION : Z := 24 * 60 * 60 * 1000.

Definition saveTodos (now : Z) (st : Store) : Store :=
  let data := mkData (memory st) (now + CACHE_DURATION) in
  mkStore (memory st) (Saved data) (Saved data).

Definition clearExpiredData (st : Store) : Store :=
  mkStore [] Absent Absent.

(** The constructor: [todos] starts empty, then [loadTodos]. *)
Definition loadTodos (now : Z) (sessionSlot localSlot : Slot) : Store :=
  let st := mkStore [] sessionSlot localSlot in
  match sessionSlot with
  | Absent =>
      match localSlot with
      | Absent => st
      | Unreadable => mkStore [] sessionSlot localSlot
      | Saved data =>
          if now >? expiresAt data
          then clearExpiredData st
          else
            let st := mkStore (todos data) sessionSlot localSlot in
            let st := saveTodos now st in
            mkStore (memory st) (TodoStorage.sessionSlot st) Absent
      end
  | Unreadable => mkStore [] sessionSlot localSlot
  | Saved data => mkStore (todos data) sessionSlot localSlot
  end.

Definition setMemory (l : list TodoItem) (st : Store) : Store :=
  mkStore l (sessionSlot st) (localSlot st).

Definition addTodo (newId : JsString) (now : Z) (text : JsString) (st : Store)
  : TodoItem * Store :=
  let todo := mkTodo newId (trim text) false now in
  (todo, saveTodos now (setMemory (todo :: memory st) st)).

(** The list with the first item that passes [test] replaced by its image
    under [f], and that image. *)
Fixpoint changeFirst (test : TodoItem -> bool) (f : TodoItem -> TodoItem)
         (l : list TodoItem) : option (TodoItem * list TodoItem) :=
  match l with
  | [] => None
  | t :: rest =>
      if test t then Some (f t, f t :: rest)
      else match changeFirst test f rest with
           | Some (t', rest') => Some (t', t :: rest')
           | None => None
           end
  end.

Definition hasId (i : JsString) (t : TodoItem) : bool := JsString_eqb (id t) i.

Definition toggleTodo (i : JsString) (now : Z) (st : Store)
  : option TodoItem * Store :=
  match changeFirst (hasId i)
          (fun t => mkTodo (id t) (text t) (negb (completed t)) (createdAt t))
          (memory st) with
  | Some (todo, l) => (Some todo, saveTodos now (setMemory l st))
  | None => (None, st)
  end.

(** [findIndex] followed by [splice(index, 1)]. *)
Fixpoint removeFirst (test : TodoItem -> bool) (l : list TodoItem)
  : option (list TodoItem) :=
  match l with
  | [] => None
  | t :: rest =>
      if test t then Some rest
      else option_map (cons t) (removeFirst test rest)
  end.

Definition deleteTodo (i : JsString) (now : Z) (st : Store) : bool * Store :=
  match removeFirst (hasId i) (memory st) with
  | Some l => (true, saveTodos now (setMemory l st))
  | None => (false, st)
  end.

Definition getTodos (st : Store) : list TodoItem := memory st.

Definition getActiveTodos (st : Store) : list TodoItem :=
  filter (fun t => negb (completed t)) (memory st).

Definition getCompletedTodos (st : Store) : list TodoItem :=
  filter completed (memory st).

Record TodoCount : Type := mkCount {
  total : Z;
  active : Z;
  completedCount : Z
}.

Definition getTodoCount (st : Store) : TodoCount :=
  let total := Z.of_nat (length (memory st)) in
  let completed := Z.of_nat (length (filter completed (memory st))) in
  let active := total - completed in
  mkCount total active completed.

Definition clearCompleted (now : Z) (st : Store) : Z * Store :=
  let completedCount := Z.of_nat (length (filter completed (memory st))) in
  let st := setMemory (filter (fun t => negb (completed t)) (memory st)) st in
  (completedCount, saveTodos now st).

Definition clearAll (now : Z) (st : Store) : Store :=
  saveTodos now (setMemory [] st).

End TodoStorage.

(* ------------------------------------------------------------------ *)
(** ** components/TodoList.ts: adding a task *)

Module TodoList.

Inductive AddResult : Type :=
| PleaseEnterATask
| TaskIsTooLong
| Added (st : TodoStorage.Store).

(** [handleAddTodo] on the text of the input field. *)
Definition handleAddTodo (newId : TodoStorage.JsString) (now : Z)
           (inputValue : TodoStorage.JsString) (st : TodoStorage.Store)
  : AddResult :=
  let text := TodoStorage.trim inputValue in
  match text with
  | [] => PleaseEnterATask
  | _ =>
      if (200 <? length text)%nat then TaskIsTooLong
      else Added (snd (TodoStorage.addTodo newId now text st))
  end.

End TodoList.

(* ------------------------------------------------------------------ *)
(** ** utils/storage.ts: the session history *)

Module StorageManager.

(** [l.slice(-n)]: the last [n] elements. *)
Definition sliceLast {A : Type} (n : nat) (l : list A) : list A :=
  skipn (length l - n) l.

(** What [saveSessionRecord] stores, given what [loadSessionHistory]
    returned. *)
Definition saveSessionRecord {A : Type} (session : A) (existing : list A)
  : list A :=
  sliceLast 100 (existing ++ [session]).

End StorageManager.


(* ------------------------------------------------------------------ *)
(** * Properties *)

(** Run the methods on a world whose state, session type and handle are
    known: unfold the methods, read the fields, compare the constants. *)
Ltac timer_steps :=
  cbv [skip tick completeSession advanceToNextSession reset pause resume
       updateSettings start clearInterval dispatchTimerEvent emit schedule
       cancel this_ set_timeRemaining set_sessionType set_state
       set_sessionsCompleted set_intervalId set_settings
       timer now nextId tasks events timeRemaining sessionType state
       sessionsCompleted intervalId settings TimerState_eqb SessionType_eqb
       fst snd andb negb] in *.

(** One goal for each combination of state, session type and handle. *)
Ltac cases_of w :=
  destruct w as [[tr ty st sc iid s] nw nid tk ev];
  destruct st, ty, iid; timer_steps.

(** The tests that remain are on numbers and flags. *)
Ltac split_tests :=
  cbv [getNextSessionType sessionType];
  repeat match goal with
    | |- context [if ?x then _ else _] => destruct x eqn:?; timer_steps
    end.

(** ** The model at work: one minute sessions with automatic breaks *)

Example one_minute_cycle :
  let oneMinute :=
    mkPartial (Some 1) (Some 1) (Some 1) (Some 2) (Some true) None in
  let w := start (newPomodoroTimer (Some oneMinute)) in
  let see (t : Timer) :=
    (state t, sessionType t, sessionsCompleted t, timeRemaining t) in
  observe see (advanceClock 59000 w) = Some (RUNNING, WORK, 0, 1)
  /\ observe see (advanceClock 60000 w) = Some (COMPLETED, WORK, 1, 0)
  /\ observe see (advanceClock 61000 w) = Some (RUNNING, SHORT_BREAK, 1, 60)
  /\ observe see (advanceClock 121000 w) = Some (COMPLETED, SHORT_BREAK, 1, 0)
  /\ observe see (advanceClock 122000 w) = Some (IDLE, WORK, 1, 60)
  /\ option_map (fun w => length (tasks w)) (advanceClock 122000 w) = Some 0%nat.
Proof.
  cbv zeta. repeat (split; [vm_compute; reflexivity | ]).
  vm_compute; reflexivity.
Qed.

Lemma getCurrentSessionDuration_durationOf (t : Timer) :
  getCurrentSessionDuration t = durationOf (settings t) (sessionType t).
Proof. reflexivity. Qed.

(** ** What each operation appends to the event log *)

Lemma start_events (w : World) :
  events (start w) = events w ++ [eventData (timer (start w))].
Proof. cases_of w; reflexivity. Qed.

Lemma reset_events (w : World) :
  events (reset w) = events w ++ [eventData (timer (reset w))].
Proof. cases_of w; reflexivity. Qed.

Lemma completeSession_events (w : World) :
  events (completeSession w)
  = events w ++ [eventData (timer (completeSession w))].
Proof. cases_of w; reflexivity. Qed.

Lemma tick_events (w : World) :
  events (tick w) = events w ++ [eventData (timer (tick w))].
Proof. cases_of w; split_tests; reflexivity. Qed.

Lemma advanceToNextSession_events (w : World) :
  events (advanceToNextSession w)
  = events w ++ [eventData (timer (advanceToNextSession w))].
Proof. cases_of w; split_tests; reflexivity. Qed.

Lemma pause_events (w : World) :
  events (pause w)
  = if TimerState_eqb (state (timer w)) RUNNING
    then events w ++ [eventData (timer (pause w))]
    else events w.
Proof. cases_of w; reflexivity. Qed.

Lemma updateSettings_events (p : PartialSettings) (w : World) :
  events (updateSettings p w)
  = if TimerState_eqb (state (timer w)) IDLE
    then events w ++ [eventData (timer (updateSettings p w))]
    else events w.
Proof. cases_of w; reflexivity. Qed.

(** ** Field by field: what the operations leave behind *)

Lemma updateSettings_settings (p : PartialSettings) (w : World) :
  settings (timer (updateSettings p w)) = spread (settings (timer w)) p.
Proof. cases_of w; reflexivity. Qed.

Lemma advanceToNextSession_settings (w : World) :
  settings (timer (advanceToNextSession w)) = settings (timer w).
Proof. cases_of w; split_tests; reflexivity. Qed.

Lemma advanceToNextSession_sessionType (w : World) :
  sessionType (timer (advanceToNextSession w)) = getNextSessionType (timer w).
Proof. cases_of w; split_tests; reflexivity. Qed.

Lemma advanceToNextSession_timeRemaining (w : World) :
  timeRemaining (timer (advanceToNextSession w))
  = durationOf (settings (timer w)) (getNextSessionType (timer w)) * 60.
Proof. cases_of w; split_tests; reflexivity. Qed.

Lemma completeSession_sessionsCompleted (w : World) :
  sessionsCompleted (timer (completeSession w))
  = if SessionType_eqb (sessionType (timer w)) WORK
    then sessionsCompleted (timer w) + 1
    else sessionsCompleted (timer w).
Proof. cases_of w; reflexivity. Qed.

Lemma completeSession_keeps (w : World) :
  sessionType (timer (completeSession w)) = sessionType (timer w)
  /\ settings (timer (completeSession w)) = settings (timer w)
  /\ timeRemaining (timer (completeSession w)) = timeRemaining (timer w)
  /\ state (timer (completeSession w)) = COMPLETED
  /\ intervalId (timer (completeSession w)) = None.
Proof. cases_of w; repeat split. Qed.

(* ------------------------------------------------------------------ *)
(** ** reset *)

(** C7. From every state, [reset] leaves the timer IDLE, with the remaining
    time equal to the configured duration of the current session type times
    60 and with the session type (and the settings) unchanged; a second
    [reset] right after the first emits the very same snapshot. *)
Theorem reset_restores_full_duration (w : World) :
  state (timer (reset w)) = IDLE
  /\ timeRemaining (timer (reset w))
     = durationOf (settings (timer w)) (sessionType (timer w)) * 60
  /\ sessionType (timer (reset w)) = sessionType (timer w)
  /\ settings (timer (reset w)) = settings (timer w)
  /\ events (reset (reset w))
     = events w ++ [eventData (timer (reset w)); eventData (timer (reset w))].
Proof.
  cases_of w; repeat split; rewrite <- app_assoc; reflexivity.
Qed.

(* ------------------------------------------------------------------ *)
(** ** The automatic advance *)



(* ------------------------------------------------------------------ *)
(** ** skip *)

(** C10. On a WORK session [skip] ends COMPLETED with one more completed
    session, whatever the state before, COMPLETED included: two calls in a
    row count the session twice and leave a second deferred advance
    pending.  The remaining time is left as it was. *)
Theorem skip_work_counts_every_call (w : World) :
  sessionType (timer w) = WORK ->
  state (timer (skip w)) = COMPLETED
  /\ sessionsCompleted (timer (skip w)) = sessionsCompleted (timer w) + 1
  /\ timeRemaining (timer (skip w)) = timeRemaining (timer w)
  /\ pendingAdvances (skip w)
     = pendingAdvances (clearInterval w)
       ++ [mkTask (nextId w) (now w + 1000) AdvanceOnce]
  /\ state (timer (skip (skip w))) = COMPLETED
  /\ sessionsCompleted (timer (skip (skip w))) = sessionsCompleted (timer w) + 2
  /\ timeRemaining (timer (skip (skip w))) = timeRemaining (timer w)
  /\ pendingAdvances (skip (skip w))
     = pendingAdvances (skip w)
       ++ [mkTask (nextId w + 1) (now w + 1000) AdvanceOnce].
Proof.
  intros W.
  destruct w as [[tr ty st sc iid s] nw nid tk ev].
  cbn in W. subst ty.
  unfold pendingAdvances.
  destruct iid; timer_steps; rewrite !filter_app; cbn [filter task_cb];
    repeat split; try reflexivity; try lia.
Qed.

Lemma skip_work_counts_every_call_witness :
  let w := skip (start (newPomodoroTimer None)) in
  state (timer w) = COMPLETED
  /\ sessionsCompleted (timer w) = 1
  /\ sessionsCompleted (timer (skip w)) = 2
  /\ length (pendingAdvances (skip w)) = 2%nat.
Proof.
  cbv zeta.
  pose proof (skip_work_counts_every_call
                (skip (start (newPomodoroTimer None))) eq_refl) as H.
  destruct H as (_ & H1 & _ & H2 & _).
  split; [reflexivity | split; [reflexivity | split]].
  - rewrite H1. reflexivity.
  - rewrite H2. reflexivity.
Defined.

(* ------------------------------------------------------------------ *)
(** ** updateSettings *)

(** C8 does not hold as stated: a new duration does not wait for the next
    session of its type.  Ten minutes set on a running 25 minute work
    session leave the 1500 seconds in place, but the session in flight is
    measured against the new total at once (progress -150 instead of 0) and
    [reset] loads the new 600 seconds into it. *)
Lemma new_duration_reaches_the_session_in_flight :
  let tenMinutes := mkPartial (Some 10) None None None None None in
  let running := start (newPomodoroTimer None) in
  let w := updateSettings tenMinutes running in
  (state (timer w), sessionType (timer w), timeRemaining (timer w),
   sessionsCompleted (timer w))
  = (RUNNING, WORK, 1500, 0)
  /\ TimerEventData.progress (eventData (timer running)) = Some (0 # 1500)
  /\ TimerEventData.progress (eventData (timer w)) = Some (-90000 # 600)
  /\ TimerEventData.progress (eventData (timer (pause w))) = Some (-90000 # 600)
  /\ timeRemaining (timer (reset running)) = 1500
  /\ timeRemaining (timer (reset w)) = 600
  /\ timeRemaining (timer (reset w)) <> timeRemaining (timer (reset running))
  /\ sessionType (timer (reset w)) = WORK.
Proof.
  cbv zeta.
  repeat (split; [vm_compute; reflexivity | ]).
  split; [vm_compute; discriminate | reflexivity].
Qed.

(** C8, amended. While IDLE, [updateSettings] re-derives the remaining time
    from the merged settings for the current session type.  While RUNNING or
    PAUSED it leaves remaining time, state and session type alone and emits
    nothing.  The merged durations are what the next automatic advance
    loads; they also reach the session in flight: its progress is computed
    from the merged total from then on, and [reset] loads the merged
    duration into it. *)
Theorem updateSettings_resizes_only_when_idle (p : PartialSettings) (w : World) :
  let w' := updateSettings p w in
  let merged := spread (settings (timer w)) p in
  settings (timer w') = merged
  /\ (state (timer w) = IDLE ->
      timeRemaining (timer w') = durationOf merged (sessionType (timer w)) * 60
      /\ state (timer w') = IDLE
      /\ sessionType (timer w') = sessionType (timer w))
  /\ (state (timer w) = RUNNING \/ state (timer w) = PAUSED ->
      timeRemaining (timer w') = timeRemaining (timer w)
      /\ state (timer w') = state (timer w)
      /\ sessionType (timer w') = sessionType (timer w)
      /\ events w' = events w
      /\ timeRemaining (timer (advanceToNextSession w'))
         = durationOf merged (sessionType (timer (advanceToNextSession w'))) * 60
      /\ TimerEventData.progress (eventData (timer w'))
         = progressOf (durationOf merged (sessionType (timer w)) * 60)
                      (timeRemaining (timer w))
      /\ timeRemaining (timer (reset w'))
         = durationOf merged (sessionType (timer w)) * 60
      /\ sessionType (timer (reset w')) = sessionType (timer w)).
Proof.
  cbv zeta. split; [apply updateSettings_settings | split].
  - intros I. destruct w as [[tr ty st sc iid s] nw nid tk ev].
    cbn in I. subst st. repeat split.
  - intros RP.
    rewrite advanceToNextSession_timeRemaining, advanceToNextSession_sessionType,
      updateSettings_settings.
    destruct w as [[tr ty st sc iid s] nw nid tk ev]. cbn in RP.
    destruct RP; subst st; destruct iid;
      repeat (split; [reflexivity | ]); reflexivity.
Qed.

Lemma updateSettings_resizes_only_when_idle_witness :
  let tenMinutes := mkPartial (Some 10) None None None None None in
  let idle := newPomodoroTimer None in
  let running := start idle in
  (state (timer idle) = IDLE
   /\ timeRemaining (timer idle) = 1500
   /\ timeRemaining (timer (updateSettings tenMinutes idle)) = 600)
  /\ (state (timer running) = RUNNING
      /\ timeRemaining (timer (updateSettings tenMinutes running)) = 1500
      /\ state (timer (updateSettings tenMinutes running)) = RUNNING
      /\ events (updateSettings tenMinutes running) = events running
      /\ TimerEventData.progress
           (eventData (timer (updateSettings tenMinutes running)))
         = progressOf 600 1500
      /\ timeRemaining (timer (reset (updateSettings tenMinutes running))) = 600).
Proof.
  cbv zeta. split.
  - split; [reflexivity | split; [reflexivity | ]].
    destruct (updateSettings_resizes_only_when_idle
                (mkPartial (Some 10) None None None None None)
                (newPomodoroTimer None)) as (_ & I & _).
    destruct (I eq_refl) as (T & _). rewrite T. reflexivity.
  - split; [reflexivity | ].
    destruct (updateSettings_resizes_only_when_idle
                (mkPartial (Some 10) None None None None None)
                (start (newPomodoroTimer None))) as (_ & _ & RP).
    destruct (RP (or_introl eq_refl)) as (T & S & _ & E & _ & P & R & _).
    rewrite T, S, E, P, R. repeat split.
Defined.

(* ------------------------------------------------------------------ *)
(** ** Session sequencing *)

(** JavaScript's [%] is the mathematical remainder on the counters the
    timer meets: a count of sessions and a positive period. *)
Lemma rem_is_mod (a n : Z) :
  0 <= a -> 1 <= n -> JsNum.strictEq (JsNum.rem a n) 0 = (a mod n =? 0).
Proof.
  intros Ha Hn. unfold JsNum.rem, JsNum.strictEq.
  destruct (Z.eqb_spec n 0) as [E | _]; [lia | ].
  rewrite Z.rem_mod_nonneg by lia. reflexivity.
Qed.

(** C5. When a WORK session completes, the counter goes up by one and the
    advance picks LONG_BREAK if the new count is a multiple of
    [sessionsUntilLongBreak], SHORT_BREAK otherwise; when a break completes,
    the advance picks WORK.  With a period of 4 and no session completed
    yet, the sessions that follow are short break, work, short break, work,
    short break, work, long break, work, short break. *)
Theorem next_session_sequencing (w : World) :
  let n := sessionsUntilLongBreak (settings (timer w)) in
  let done := completeSession w in
  1 <= n ->
  0 <= sessionsCompleted (timer w) ->
  (sessionType (timer w) = WORK ->
   sessionsCompleted (timer done) = sessionsCompleted (timer w) + 1
   /\ sessionType (timer (advanceToNextSession done))
      = if sessionsCompleted (timer done) mod n =? 0
        then LONG_BREAK else SHORT_BREAK)
  /\ (sessionType (timer w) <> WORK ->
      sessionType (timer (advanceToNextSession done)) = WORK)
  /\ (n = 4 -> sessionType (timer w) = WORK -> sessionsCompleted (timer w) = 0 ->
      sessionsAfter 9 w
      = [SHORT_BREAK; WORK; SHORT_BREAK; WORK; SHORT_BREAK; WORK;
         LONG_BREAK; WORK; SHORT_BREAK]).
Proof.
  cbv zeta. intros Hn Hc.
  rewrite advanceToNextSession_sessionType.
  destruct (completeSession_keeps w) as (Ty & Se & _).
  pose proof (completeSession_sessionsCompleted w) as Sc.
  unfold getNextSessionType. rewrite Ty, Se.
  split; [ | split].
  - intros W. rewrite W in Sc |- *. cbn [SessionType_eqb] in Sc. rewrite Sc.
    split; [reflexivity | ]. rewrite rem_is_mod by lia. reflexivity.
  - intros B. destruct (sessionType (timer w)); [congruence | reflexivity ..].
  - intros N W Z0.
    destruct w as [[tr ty st sc iid [wd sb lb n a snd]] nw nid tk ev].
    cbn in N, W, Z0. subst n ty sc.
    destruct a, iid; reflexivity.
Qed.

Lemma next_session_sequencing_witness :
  let w := start (newPomodoroTimer None) in
  sessionsCompleted (timer (completeSession w)) = 1
  /\ sessionType (timer (advanceToNextSession (completeSession w))) = SHORT_BREAK
  /\ sessionType
       (timer (advanceToNextSession
                 (completeSession (advanceToNextSession (completeSession w)))))
     = WORK
  /\ nth 6 (sessionsAfter 9 w) WORK = LONG_BREAK.
Proof.
  cbv zeta.
  assert (Hn : 1 <= sessionsUntilLongBreak
                      (settings (timer (start (newPomodoroTimer None)))))
    by (cbn; lia).
  assert (Hc : 0 <= sessionsCompleted (timer (start (newPomodoroTimer None))))
    by (cbn; lia).
  destruct (next_session_sequencing (start (newPomodoroTimer None)) Hn Hc)
    as (Wk & _ & Seq).
  destruct (Wk eq_refl) as (C & T).
  split; [exact C | split; [rewrite T; reflexivity | split]].
  - assert (Hn' : 1 <= sessionsUntilLongBreak
                         (settings (timer (advanceToNextSession
                            (completeSession (start (newPomodoroTimer None)))))))
      by (cbn; lia).
    assert (Hc' : 0 <= sessionsCompleted
                         (timer (advanceToNextSession
                            (completeSession (start (newPomodoroTimer None))))))
      by (cbn; lia).
    destruct (next_session_sequencing _ Hn' Hc') as (_ & Bk & _).
    apply Bk. cbn. discriminate.
  - rewrite (Seq eq_refl eq_refl eq_refl). reflexivity.
Defined.

(* ------------------------------------------------------------------ *)
(** ** Snapshot emission *)

(** C4 does not hold as stated: settings applied to a RUNNING (or
    PAUSED) timer are stored without any event. *)
Lemma updateSettings_while_running_is_silent :
  let tenMinutes := mkPartial (Some 10) None None None None None in
  let running := start (newPomodoroTimer None) in
  let paused := pause running in
  state (timer running) = RUNNING
  /\ events (updateSettings tenMinutes running) = events running
  /\ length (events (updateSettings tenMinutes running))
     <> S (length (events running))
  /\ state (timer paused) = PAUSED
  /\ events (updateSettings tenMinutes paused) = events paused.
Proof.
  cbv zeta.
  split; [reflexivity | ].
  split; [vm_compute; reflexivity | ].
  split; [vm_compute; discriminate | ].
  split; [reflexivity | vm_compute; reflexivity].
Qed.

(** C4, amended. [start], [reset], [skip], [tick] and the automatic advance
    each append exactly one event, the snapshot of the state they end in.
    [pause] does so when the timer is RUNNING, [resume] when it is PAUSED
    and [updateSettings] when it is IDLE; in every other state these three
    append nothing. *)
Theorem snapshot_per_operation (p : PartialSettings) (w : World) :
  events (start w) = events w ++ [eventData (timer (start w))]
  /\ events (reset w) = events w ++ [eventData (timer (reset w))]
  /\ events (skip w) = events w ++ [eventData (timer (skip w))]
  /\ events (tick w) = events w ++ [eventData (timer (tick w))]
  /\ events (advanceToNextSession w)
     = events w ++ [eventData (timer (advanceToNextSession w))]
  /\ events (pause w)
     = (if TimerState_eqb (state (timer w)) RUNNING
        then events w ++ [eventData (timer (pause w))]
        else events w)
  /\ events (resume w)
     = (if TimerState_eqb (state (timer w)) PAUSED
        then events w ++ [eventData (timer (resume w))]
        else events w)
  /\ events (updateSettings p w)
     = (if TimerState_eqb (state (timer w)) IDLE
        then events w ++ [eventData (timer (updateSettings p w))]
        else events w).
Proof.
  repeat split.
  - apply start_events.
  - apply reset_events.
  - apply completeSession_events.
  - apply tick_events.
  - apply advanceToNextSession_events.
  - apply pause_events.
  - unfold resume. destruct (TimerState_eqb (state (timer w)) PAUSED).
    + apply start_events.
    + reflexivity.
  - apply updateSettings_events.
Qed.

(* ------------------------------------------------------------------ *)
(** ** Settings are taken as they come *)

(** C3 does not hold as stated: a zero or negative value is stored as
    it is, at construction and through [updateSettings]. *)
Lemma invalid_settings_are_stored_unclamped :
  let bad := mkPartial (Some 0) (Some (-5)) None (Some 0) None None in
  settings (timer (newPomodoroTimer (Some bad))) = mkSettings 0 (-5) 15 0 false true
  /\ settings (timer (updateSettings bad (newPomodoroTimer None)))
     = mkSettings 0 (-5) 15 0 false true
  /\ ~ validSettings (settings (timer (newPomodoroTimer (Some bad))))
  /\ ~ validSettings (settings (timer (updateSettings bad (newPomodoroTimer None)))).
Proof.
  cbv zeta.
  split; [vm_compute; reflexivity | ].
  split; [vm_compute; reflexivity | ].
  split; intros (H & _); vm_compute in H; discriminate.
Qed.

Lemma spread_valid (s : Settings) (p : PartialSettings) :
  validSettings s -> validPartial p -> validSettings (spread s p).
Proof.
  destruct s as [wd sb lb n a snd], p as [pw ps pl pn pa pd].
  unfold validSettings, validPartial, okOrAbsent. cbn.
  destruct pw, ps, pl, pn; cbn; lia.
Qed.

(** C3, amended. The core stores the settings it is given: a supplied field
    replaces the stored one, an absent field keeps it (the default, at
    construction); no value is changed on the way and every input is
    accepted.  The stored settings are valid whenever the settings before
    were and every supplied number is at least 1. *)
Theorem settings_are_stored_as_given (p : PartialSettings) (w : World) :
  settings (timer (updateSettings p w)) = spread (settings (timer w)) p
  /\ settings (timer (newPomodoroTimer (Some p))) = spread DEFAULT_SETTINGS p
  /\ settings (timer (newPomodoroTimer None)) = DEFAULT_SETTINGS
  /\ (validSettings (settings (timer w)) -> validPartial p ->
      validSettings (settings (timer (updateSettings p w))))
  /\ (validPartial p ->
      validSettings (settings (timer (newPomodoroTimer (Some p))))).
Proof.
  assert (N : settings (timer (newPomodoroTimer (Some p)))
              = spread DEFAULT_SETTINGS p) by reflexivity.
  split; [apply updateSettings_settings | ].
  split; [exact N | split; [reflexivity | split]].
  - intros V P. rewrite updateSettings_settings. now apply spread_valid.
  - intros P. rewrite N. apply spread_valid; [ | exact P].
    unfold validSettings. cbn. lia.
Qed.

Lemma settings_are_stored_as_given_witness :
  let p := mkPartial (Some 50) None (Some 30) (Some 2) (Some true) None in
  validSettings (settings (timer (start (newPomodoroTimer None))))
  /\ validPartial p
  /\ validSettings
       (settings (timer (updateSettings p (start (newPomodoroTimer None)))))
  /\ validSettings (settings (timer (newPomodoroTimer (Some p)))).
Proof.
  cbv zeta.
  assert (V : validSettings (settings (timer (start (newPomodoroTimer None)))))
    by (unfold validSettings; cbn; lia).
  assert (P : validPartial
                (mkPartial (Some 50) None (Some 30) (Some 2) (Some true) None))
    by (unfold validPartial, okOrAbsent; cbn; repeat split; lia).
  destruct (settings_are_stored_as_given
              (mkPartial (Some 50) None (Some 30) (Some 2) (Some true) None)
              (start (newPomodoroTimer None))) as (_ & _ & _ & U & C).
  split; [exact V | split; [exact P | split; [exact (U V P) | exact (C P)]]].
Defined.

(* ------------------------------------------------------------------ *)
(** ** Progress *)









(* ------------------------------------------------------------------ *)
(** ** Tick sources *)

(** [start] arms a new interval and cancels none: the handle it overwrites
    stays armed. *)
Lemma start_arms_without_cancelling (w : World) :
  tasks (start w)
  = tasks w ++ [mkTask (nextId w) (now w + 1000) TickEverySecond]
  /\ intervalId (timer (start w)) = Some (nextId w).
Proof. cases_of w; split; reflexivity. Qed.

(** [tick] counts down whatever the state is. *)
Lemma tick_counts_down (w : World) :
  timeRemaining (timer (tick w)) = timeRemaining (timer w) - 1.
Proof. cases_of w; split_tests; reflexivity. Qed.

(** C1. On the code, a second [start] on a RUNNING timer leaves two
    intervals armed, and the next second takes two units off the remaining
    time: idempotence does not hold of [start]. *)
Theorem start_while_running_double_schedules :
  let running := start (newPomodoroTimer None) in
  let again := start running in
  state (timer running) = RUNNING
  /\ length (tickSources running) = 1%nat
  /\ length (tickSources again) = 2%nat
  /\ timeRemaining (timer again) = 1500
  /\ observe timeRemaining (advanceClock 1000 running) = Some 1499
  /\ observe timeRemaining (advanceClock 1000 again) = Some 1498.
Proof.
  cbv zeta. repeat (split; [vm_compute; reflexivity | ]).
  vm_compute; reflexivity.
Qed.

(** C2. On the code, a tick delivered to a timer that is not RUNNING does
    count down: after [start], [start], [pause] the interval that the second
    [start] left behind fires on a PAUSED timer, takes one unit off the
    remaining time and emits a snapshot. *)
Theorem tick_while_paused_counts_down :
  let paused := pause (start (start (newPomodoroTimer None))) in
  state (timer paused) = PAUSED
  /\ timeRemaining (timer paused) = 1500
  /\ length (tickSources paused) = 1%nat
  /\ timeRemaining (timer (tick paused)) = 1499
  /\ length (events (tick paused)) = S (length (events paused))
  /\ observe (fun t => (state t, timeRemaining t)) (advanceClock 1000 paused)
     = Some (PAUSED, 1499)
  /\ timeRemaining (timer (tick (newPomodoroTimer None))) = 1499
  /\ state (timer (tick (newPomodoroTimer None))) = IDLE.
Proof.
  cbv zeta. repeat (split; [vm_compute; reflexivity | ]).
  vm_compute; reflexivity.
Qed.

(* ------------------------------------------------------------------ *)
(** * Further properties of the timer *)

(** ** pause and resume *)

(** Pausing a RUNNING timer and resuming it leaves the remaining time, the
    session type, the counter and the settings as they were and ends
    RUNNING; two snapshots are emitted on the way. *)
Theorem pause_resume_keeps_time (w : World) :
  state (timer w) = RUNNING ->
  let w' := resume (pause w) in
  timeRemaining (timer w') = timeRemaining (timer w)
  /\ state (timer (pause w)) = PAUSED
  /\ timeRemaining (timer (pause w)) = timeRemaining (timer w)
  /\ state (timer w') = RUNNING
  /\ sessionType (timer w') = sessionType (timer w)
  /\ sessionsCompleted (timer w') = sessionsCompleted (timer w)
  /\ settings (timer w') = settings (timer w)
  /\ length (events w') = S (S (length (events w)))
  /\ handleStartPauseClick (handleStartPauseClick w) = w'.
Proof.
  intros R. destruct w as [[tr ty st sc iid s] nw nid tk ev].
  cbn in R. subst st. cbv zeta. unfold handleStartPauseClick, resume.
  destruct iid; timer_steps; rewrite ?length_app; cbn [length];
    repeat split; lia.
Qed.

Lemma pause_resume_keeps_time_witness :
  let oneMinute := mkPartial (Some 1) None None None None None in
  option_map
    (fun w => (state (timer w), timeRemaining (timer w),
               timeRemaining (timer (resume (pause w)))))
    (advanceClock 20000 (start (newPomodoroTimer (Some oneMinute))))
  = Some (RUNNING, 40, 40).
Proof.
  cbv zeta.
  destruct (advanceClock 20000
              (start (newPomodoroTimer
                        (Some (mkPartial (Some 1) None None None None None)))))
    as [w | ] eqn:E; [ | vm_compute in E; discriminate E].
  assert (R : state (timer w) = RUNNING)
    by (vm_compute in E; injection E as <-; reflexivity).
  destruct (pause_resume_keeps_time w R) as (T & _).
  cbn [option_map]. rewrite T, R.
  vm_compute in E. injection E as <-. reflexivity.
Defined.

(** [pause] on a timer that is not RUNNING and [resume] on a timer that is
    not PAUSED change nothing at all: no field, no task, no event.  Hence a
    second [pause] in a row does nothing. *)
Theorem pause_and_resume_ignore_other_states (w : World) :
  (state (timer w) <> RUNNING -> pause w = w)
  /\ (state (timer w) <> PAUSED -> resume w = w)
  /\ pause (pause w) = pause w.
Proof.
  destruct w as [[tr ty st sc iid s] nw nid tk ev].
  split; [ | split].
  - cbn. intros N. destruct st; try reflexivity. congruence.
  - cbn. intros N. destruct st; try reflexivity. congruence.
  - destruct st, iid; reflexivity.
Qed.

Lemma pause_and_resume_ignore_other_states_witness :
  pause (newPomodoroTimer None) = newPomodoroTimer None
  /\ resume (start (newPomodoroTimer None)) = start (newPomodoroTimer None).
Proof.
  split.
  - apply (proj1 (pause_and_resume_ignore_other_states (newPomodoroTimer None))).
    cbn. discriminate.
  - apply (proj1 (proj2 (pause_and_resume_ignore_other_states
                           (start (newPomodoroTimer None))))).
    cbn. discriminate.
Defined.

(* ------------------------------------------------------------------ *)
(** ** What no use of the timer undoes *)

(** The later world has at least the completed sessions of the earlier one,
    all its events in the same order, and a handle counter that did not go
    back. *)
Definition grows (w w' : World) : Prop :=
  sessionsCompleted (timer w) <= sessionsCompleted (timer w')
  /\ (exists l, events w' = events w ++ l)
  /\ nextId w <= nextId w'.

Lemma grows_refl (w : World) : grows w w.
Proof.
  repeat split; try lia. exists []. now rewrite app_nil_r.
Qed.

Lemma grows_trans (a b c : World) : grows a b -> grows b c -> grows a c.
Proof.
  intros (S1 & (l1 & E1) & N1) (S2 & (l2 & E2) & N2).
  repeat split; try lia.
  exists (l1 ++ l2). now rewrite E2, E1, app_assoc.
Qed.

Ltac grows_case :=
  unfold grows; cbn [sessionsCompleted timer nextId events];
  split; [lia | split; [ | lia]];
  first [ now (exists []; rewrite app_nil_r) | eexists; reflexivity ].

Lemma grows_primitive (w : World) :
  grows w (start w) /\ grows w (pause w) /\ grows w (reset w)
  /\ grows w (completeSession w) /\ grows w (tick w)
  /\ grows w (advanceToNextSession w)
  /\ forall p, grows w (updateSettings p w).
Proof.
  repeat match goal with |- _ /\ _ => split | |- forall _, _ => intro end;
    cases_of w; split_tests; grows_case.
Qed.

Lemma grows_perform (c : Call) (w : World) : grows w (perform c w).
Proof.
  destruct (grows_primitive w) as (St & Pa & Re & Co & _ & _ & Up).
  destruct c; cbn [perform]; try assumption.
  - unfold resume. destruct (TimerState_eqb _ _); [assumption | apply grows_refl].
  - apply Up.
  - unfold handleStartPauseClick.
    destruct (state (timer w)); try assumption. apply grows_refl.
Qed.

Lemma grows_fire (k : Task) (w : World) : grows w (fire k w).
Proof.
  unfold fire. destruct (task_cb k).
  - match goal with |- grows _ (tick ?x) =>
      destruct (grows_primitive x) as (_ & _ & _ & _ & T & _) end.
    exact T.
  - match goal with |- grows _ (advanceToNextSession ?x) =>
      destruct (grows_primitive x) as (_ & _ & _ & _ & _ & A & _) end.
    exact A.
Qed.

(** Whatever is done to a timer (any call in any state, any armed task
    firing, time passing), the count of completed sessions never goes down
    and the events already dispatched stay as they are, in order, at the
    head of the log. *)
Theorem use_never_undoes (w w' : World) :
  Reaches anyCall w w' ->
  sessionsCompleted (timer w) <= sessionsCompleted (timer w')
  /\ exists l, events w' = events w ++ l.
Proof.
  intros R.
  assert (G : grows w w').
  { induction R as [ | w' c _ IH _ | w' k _ IH _ | w' t _ IH ].
    - apply grows_refl.
    - eapply grows_trans; [exact IH | apply grows_perform].
    - eapply grows_trans; [exact IH | apply grows_fire].
    - exact IH. }
  destruct G as (S & E & _). split; assumption.
Qed.

Lemma use_never_undoes_witness :
  let w := start (newPomodoroTimer None) in
  let w' := perform CallSkip (perform CallSkip (perform CallReset w)) in
  sessionsCompleted (timer w) <= sessionsCompleted (timer w')
  /\ exists l, events w' = events w ++ l.
Proof.
  cbv zeta. apply use_never_undoes.
  apply reach_call; [ | reflexivity].
  apply reach_call; [ | reflexivity].
  apply reach_call; [ | reflexivity].
  apply reach_here.
Defined.

(** Only [updateSettings] changes the settings and only the automatic
    advance changes the session type: [start], [pause], [resume], [reset],
    [skip], [tick] and the button click keep both, and the advance keeps the
    settings. *)
Theorem settings_and_session_type_are_kept (w : World) :
  let same (w' : World) :=
    settings (timer w') = settings (timer w)
    /\ sessionType (timer w') = sessionType (timer w) in
  same (start w) /\ same (pause w) /\ same (resume w) /\ same (reset w)
  /\ same (skip w) /\ same (tick w) /\ same (handleStartPauseClick w)
  /\ settings (timer (advanceToNextSession w)) = settings (timer w)
  /\ forall p, sessionType (timer (updateSettings p w)) = sessionType (timer w).
Proof.
  cbv zeta. unfold handleStartPauseClick, resume.
  repeat match goal with |- _ /\ _ => split end; try intros p;
    cases_of w; split_tests; reflexivity.
Qed.

(* ------------------------------------------------------------------ *)
(** ** Careful use keeps the window tidy *)

(** Take a world apart and keep the cases in which it is tidy. *)
Ltac tidy_cases w H :=
  destruct w as [[tr ty st sc iid s] nw nid tk ev];
  unfold tidy in H; cbn [state intervalId timer tasks] in H;
  destruct st, iid as [id | ], tk as [ | [kid kdue kcb] [ | k2 tk]];
  try discriminate H;
  cbn [task_id task_cb] in H;
  try (destruct kcb; rewrite ?andb_false_r in H; try discriminate H;
       try (rewrite andb_true_r in H; apply Z.eqb_eq in H; subst kid)).

Ltac tidy_goal :=
  unfold tidy; timer_steps; cbn [filter map app task_id task_due task_cb];
  rewrite ?Z.eqb_refl; cbn [negb filter app andb task_id task_cb];
  rewrite ?Z.eqb_refl; try reflexivity.

Lemma tidy_new (p : option PartialSettings) : tidy (newPomodoroTimer p) = true.
Proof. destruct p; reflexivity. Qed.

Lemma tidy_perform (c : Call) (w : World) :
  tidy w = true -> carefulCall c w = true -> tidy (perform c w) = true.
Proof.
  intros T C. tidy_cases w T;
    destruct c; cbn in C; try discriminate C;
    unfold perform, handleStartPauseClick, resume;
    destruct ty; tidy_goal.
Qed.

Lemma tidy_fire (k : Task) (w : World) :
  tidy w = true -> In k (tasks w) -> tidy (fire k w) = true.
Proof.
  intros T I. tidy_cases w T; cbn in I; try contradiction;
    destruct I as [<- | []]; unfold fire, rearm; cbn [task_cb task_id task_due];
    destruct ty; unfold tidy; timer_steps;
    cbv [getNextSessionType sessionType];
    try match goal with
      | |- context [?a <=? 0] => destruct (a <=? 0)
      end;
    try match goal with
      | |- context [autoStartBreaks ?x] => destruct (autoStartBreaks x)
      end;
    try match goal with
      | |- context [JsNum.strictEq ?a ?b] => destruct (JsNum.strictEq a b)
      end;
    tidy_goal.
Qed.

Lemma tidy_sources (w : World) :
  tidy w = true ->
  length (tickSources w)
  = (if TimerState_eqb (state (timer w)) RUNNING then 1 else 0)%nat
  /\ length (pendingAdvances w)
     = (if TimerState_eqb (state (timer w)) COMPLETED then 1 else 0)%nat.
Proof.
  intros T. tidy_cases w T; split; reflexivity.
Qed.

(** From construction on, as long as [start] is called on an IDLE or PAUSED
    timer only (which is all the start/pause button does) and neither
    [reset] nor [skip] is called between a completion and its deferred
    advance, whatever else is called and whichever armed task fires: exactly
    one interval is armed while the timer is RUNNING and none otherwise, and
    exactly one advance is pending while it is COMPLETED and none
    otherwise. *)
Theorem careful_use_keeps_one_tick_source
        (p : option PartialSettings) (w : World) :
  Reaches carefulCall (newPomodoroTimer p) w ->
  tidy w = true
  /\ length (tickSources w)
     = (if TimerState_eqb (state (timer w)) RUNNING then 1 else 0)%nat
  /\ length (pendingAdvances w)
     = (if TimerState_eqb (state (timer w)) COMPLETED then 1 else 0)%nat.
Proof.
  intros R.
  assert (T : tidy w = true).
  { induction R as [ | w' c _ IH C | w' k _ IH I | w' t _ IH ].
    - apply tidy_new.
    - now apply tidy_perform.
    - now apply tidy_fire.
    - exact IH. }
  split; [exact T | now apply tidy_sources].
Qed.

Lemma careful_use_keeps_one_tick_source_witness :
  let w := perform CallClick
             (perform CallClick (perform CallClick (newPomodoroTimer None))) in
  state (timer w) = RUNNING
  /\ length (tickSources w) = 1%nat
  /\ length (pendingAdvances w) = 0%nat.
Proof.
  cbv zeta.
  assert (R : Reaches carefulCall (newPomodoroTimer None)
                (perform CallClick
                   (perform CallClick
                      (perform CallClick (newPomodoroTimer None))))).
  { repeat (apply reach_call; [ | reflexivity]). apply reach_here. }
  destruct (careful_use_keeps_one_tick_source None _ R) as (_ & S & A).
  split; [reflexivity | split; [exact S | exact A]].
Defined.

(* ------------------------------------------------------------------ *)
(** ** The countdown, second by second *)

(** A RUNNING timer whose only task is its own interval. *)
Definition ticking (r : Z) (ty : SessionType) (sc : Z) (id : Z) (s : Settings)
           (nw nid due : Z) (ev : list TimerEventData.t) : World :=
  mkWorld (mkTimer r ty RUNNING sc (Some id) s) nw nid
          [mkTask id due TickEverySecond] ev.

Lemma nextDue_single (target : Z) (k : Task) :
  nextDue target [k] = if task_due k <=? target then Some k else None.
Proof.
  unfold nextDue. cbn [filter]. now destruct (task_due k <=? target).
Qed.

(** One tick that does not end the session. *)
Lemma fire_ticking r ty sc id s nw nid due ev :
  1 < r ->
  fire (mkTask id due TickEverySecond) (ticking r ty sc id s nw nid due ev)
  = ticking (r - 1) ty sc id s due nid (due + 1000)
      (ev ++ [eventData (mkTimer (r - 1) ty RUNNING sc (Some id) s)]).
Proof.
  intros R. unfold fire, ticking, rearm.
  cbn [task_cb task_id task_due map tasks timer nextId events].
  rewrite Z.eqb_refl. timer_steps.
  destruct (Z.leb_spec (r - 1) 0) as [L | _]; [lia | reflexivity].
Qed.


(** [n] ticks in a row, none of which ends the session. *)
Lemma runTimers_ticks (target : Z) (n : nat) :
  forall fuel r ty sc id s nw nid due ev,
    Z.of_nat n < r ->
    (0 < Z.of_nat n -> due + 1000 * (Z.of_nat n - 1) <= target) ->
    exists nw' ev',
      length ev' = n
      /\ runTimers (n + fuel) target (ticking r ty sc id s nw nid due ev)
         = runTimers fuel target
             (ticking (r - Z.of_nat n) ty sc id s nw' nid
                      (due + 1000 * Z.of_nat n) (ev ++ ev')).
Proof.
  induction n as [ | n IH]; intros fuel r ty sc id s nw nid due ev R D.
  - exists nw, []. split; [reflexivity | ].
    cbn [Nat.add Z.of_nat]. now rewrite Z.sub_0_r, Z.mul_0_r, Z.add_0_r, app_nil_r.
  - rewrite Nat2Z.inj_succ in *.
    assert (Due : due <= target) by lia.
    cbn [Nat.add runTimers]. unfold ticking at 1. cbn [tasks].
    rewrite nextDue_single. cbn [task_due].
    destruct (Z.leb_spec due target) as [_ | L]; [ | lia].
    fold (ticking r ty sc id s nw nid due ev).
    rewrite fire_ticking by lia.
    destruct (IH fuel (r - 1) ty sc id s due nid (due + 1000)
                 (ev ++ [eventData (mkTimer (r - 1) ty RUNNING sc (Some id) s)]))
      as (nw' & ev' & Len & Run); [lia | lia | ].
    exists nw', (eventData (mkTimer (r - 1) ty RUNNING sc (Some id) s) :: ev').
    split; [cbn [length]; now rewrite Len | ].
    rewrite Run. rewrite <- app_assoc. cbn [app].
    replace (r - 1 - Z.of_nat n) with (r - Z.succ (Z.of_nat n)) by lia.
    replace (due + 1000 + 1000 * Z.of_nat n)
      with (due + 1000 * Z.succ (Z.of_nat n)) by lia.
    reflexivity.
Qed.

(** A timer that was just started, or has just ticked, and owns the only
    task of the window: its interval falls due one second from now. *)
Definition justArmed (w : World) : Prop :=
  state (timer w) = RUNNING
  /\ exists id,
       intervalId (timer w) = Some id
       /\ tasks w = [mkTask id (now w + 1000) TickEverySecond].

Lemma justArmed_ticking (w : World) :
  justArmed w ->
  exists id,
    w = ticking (timeRemaining (timer w)) (sessionType (timer w))
                (sessionsCompleted (timer w)) id (settings (timer w))
                (now w) (nextId w) (now w + 1000) (events w).
Proof.
  intros (R & id & I & T). exists id.
  destruct w as [[tr ty st sc iid s] nw nid tk ev].
  cbn in *. subst. reflexivity.
Qed.

Lemma start_justArmed (w : World) :
  tidy w = true ->
  state (timer w) = IDLE \/ state (timer w) = PAUSED ->
  justArmed (start w).
Proof.
  intros T S. tidy_cases w T; cbn in S; destruct S as [S | S];
    try discriminate S; (split; [reflexivity | exists nid; split; reflexivity]).
Qed.

(** While the session lasts, the clock takes one unit off the remaining
    time for every whole second that passes, emits one snapshot for each,
    and changes nothing else: [ms] milliseconds after the interval was
    armed, with fewer whole seconds than the remaining time, the timer is
    RUNNING with the remaining time less the whole seconds of [ms]. *)
Theorem countdown_by_whole_seconds (w : World) (ms : Z) :
  justArmed w ->
  0 <= ms ->
  ms / 1000 < timeRemaining (timer w) ->
  exists w',
    advanceClock ms w = Some w'
    /\ timeRemaining (timer w') = timeRemaining (timer w) - ms / 1000
    /\ state (timer w') = RUNNING
    /\ sessionType (timer w') = sessionType (timer w)
    /\ sessionsCompleted (timer w') = sessionsCompleted (timer w)
    /\ settings (timer w') = settings (timer w)
    /\ length (tickSources w') = 1%nat
    /\ length (events w') = (length (events w) + Z.to_nat (ms / 1000))%nat
    /\ now w' = now w + ms.
Proof.
  intros A M R.
  destruct (justArmed_ticking w A) as (id & W).
  remember (timeRemaining (timer w)) as r.
  remember (sessionType (timer w)) as ty.
  remember (sessionsCompleted (timer w)) as sc.
  remember (settings (timer w)) as s.
  remember (events w) as ev.
  remember (now w) as nw. remember (nextId w) as nid.
  rewrite W. clear W.
  pose proof (Z.div_pos ms 1000 M ltac:(lia)) as Q0.
  pose proof (Z.mul_div_le ms 1000 ltac:(lia)) as Lo.
  pose proof (Z.mul_succ_div_gt ms 1000 ltac:(lia)) as Hi.
  unfold advanceClock. unfold ticking at 1 2. cbn [tasks now length Nat.mul].
  fold (ticking r ty sc id s nw nid (nw + 1000) ev).
  rewrite Nat.add_0_r.
  replace (S (Z.to_nat (ms / 1000))) with (Z.to_nat (ms / 1000) + 1)%nat by lia.
  destruct (runTimers_ticks (nw + ms) (Z.to_nat (ms / 1000)) 1 r ty sc id s
                            nw nid (nw + 1000) ev)
    as (nw' & ev' & Len & Run); [lia | lia | ].
  rewrite Run. rewrite Z2Nat.id by lia.
  cbn [runTimers]. unfold ticking at 1. cbn [tasks].
  rewrite nextDue_single. cbn [task_due].
  destruct (Z.leb_spec (nw + 1000 + 1000 * (ms / 1000)) (nw + ms)) as [L | _];
    [lia | ].
  eexists. split; [reflexivity | ].
  unfold ticking.
  cbn [timer timeRemaining state sessionType sessionsCompleted settings
       events now tickSources tasks filter task_cb length].
  rewrite length_app, Len. repeat split.
Qed.

Lemma countdown_by_whole_seconds_witness :
  let w := start (newPomodoroTimer None) in
  exists w',
    advanceClock 90500 w = Some w'
    /\ timeRemaining (timer w') = 1410
    /\ state (timer w') = RUNNING.
Proof.
  cbv zeta.
  assert (A : justArmed (start (newPomodoroTimer None))).
  { split; [reflexivity | exists 1; split; reflexivity]. }
  destruct (countdown_by_whole_seconds _ 90500 A ltac:(lia) ltac:(cbn; lia))
    as (w' & Run & T & S & _).
  exists w'. split; [exact Run | split; [rewrite T; reflexivity | exact S]].
Defined.






(* ------------------------------------------------------------------ *)
(** ** Time passing over a timer that is not running *)

(** In a tidy window, an IDLE or PAUSED timer is frozen: however much time
    passes, no field changes, no event is dispatched and nothing gets
    scheduled.  In particular the remaining time of a paused session stays
    what it was when [pause] was called. *)
Theorem idle_or_paused_timer_is_frozen (w : World) (ms : Z) :
  tidy w = true ->
  (state (timer w) = IDLE \/ state (timer w) = PAUSED ->
   advanceClock ms w = Some (atTime (now w + ms) w))
  /\ (state (timer w) = RUNNING ->
      advanceClock ms (pause w) = Some (atTime (now w + ms) (pause w))
      /\ timeRemaining (timer (pause w)) = timeRemaining (timer w)).
Proof.
  intros T. split.
  - intros S. tidy_cases w T; cbn in S; destruct S as [S | S];
      try discriminate S; reflexivity.
  - intros S. tidy_cases w T; cbn in S; try discriminate S.
    unfold advanceClock. timer_steps. cbn [filter task_id].
    rewrite Z.eqb_refl. split; reflexivity.
Qed.

Lemma idle_or_paused_timer_is_frozen_witness :
  let w := start (newPomodoroTimer None) in
  advanceClock 3600000 (newPomodoroTimer None)
  = Some (atTime 3600000 (newPomodoroTimer None))
  /\ observe timeRemaining (advanceClock 3600000 (pause w)) = Some 1500.
Proof.
  cbv zeta. split.
  - apply (proj1 (idle_or_paused_timer_is_frozen
                    (newPomodoroTimer None) 3600000 eq_refl)).
    left. reflexivity.
  - destruct (proj2 (idle_or_paused_timer_is_frozen
                       (start (newPomodoroTimer None)) 3600000 eq_refl)
                    eq_refl) as (Run & _).
    rewrite Run. reflexivity.
Defined.

(* ------------------------------------------------------------------ *)
(** ** The period of long breaks at its edges *)

(** After a WORK session: with [sessionsUntilLongBreak] set to 1 every break
    is a long one; with 0 the remainder is not a number and no break is ever
    long; a negative period behaves as its absolute value. *)
Theorem long_break_period_edges (t : Timer) :
  sessionType t = WORK ->
  let n := sessionsUntilLongBreak (settings t) in
  (n = 1 -> getNextSessionType t = LONG_BREAK)
  /\ (n = 0 -> getNextSessionType t = SHORT_BREAK)
  /\ (n < 0 ->
      getNextSessionType t
      = getNextSessionType
          (set_settings
             (spread (settings t)
                     (mkPartial None None None (Some (- n)) None None)) t)).
Proof.
  intros W. cbv zeta. unfold getNextSessionType.
  cbn [sessionType set_settings settings sessionsCompleted spread orKeep
       p_sessionsUntilLongBreak sessionsUntilLongBreak].
  rewrite !W.
  unfold JsNum.rem, JsNum.strictEq.
  split; [ | split].
  - intros ->. cbn [Z.eqb]. now rewrite Z.rem_1_r.
  - intros ->. reflexivity.
  - intros N.
    destruct (Z.eqb_spec (sessionsUntilLongBreak (settings t)) 0) as [E | _];
      [lia | ].
    destruct (Z.eqb_spec (- sessionsUntilLongBreak (settings t)) 0) as [E | _];
      [lia | ].
    rewrite Z.rem_opp_r'. reflexivity.
Qed.

Lemma long_break_period_edges_witness :
  let every := mkPartial None None None (Some 1) None None in
  let never := mkPartial None None None (Some 0) None None in
  sessionType (timer (advanceToNextSession
                        (skip (newPomodoroTimer (Some every))))) = LONG_BREAK
  /\ sessionsAfter 9 (newPomodoroTimer (Some never))
     = [SHORT_BREAK; WORK; SHORT_BREAK; WORK; SHORT_BREAK; WORK;
        SHORT_BREAK; WORK; SHORT_BREAK].
Proof.
  cbv zeta. split.
  - rewrite advanceToNextSession_sessionType.
    apply (proj1 (long_break_period_edges
                    (timer (skip (newPomodoroTimer
                                    (Some (mkPartial None None None (Some 1)
                                                     None None)))))
                    eq_refl)).
    reflexivity.
  - reflexivity.
Defined.

(* ------------------------------------------------------------------ *)
(** ** reset between a completion and its advance *)

(** [reset] cancels the interval but not the deferred advance.  Called on a
    COMPLETED timer it shows the finished session again at full duration,
    IDLE; the advance stays pending and, when it fires, moves the timer to
    the next session all the same. *)
Theorem reset_keeps_the_pending_advance (w : World) :
  tidy w = true ->
  state (timer w) = COMPLETED ->
  tasks (reset w) = tasks w
  /\ length (pendingAdvances (reset w)) = 1%nat
  /\ state (timer (reset w)) = IDLE
  /\ sessionType (timer (reset w)) = sessionType (timer w)
  /\ forall k, In k (tasks (reset w)) ->
       sessionType (timer (fire k (reset w))) = getNextSessionType (timer w)
       /\ timeRemaining (timer (fire k (reset w)))
          = durationOf (settings (timer w)) (getNextSessionType (timer w)) * 60.
Proof.
  intros T S. tidy_cases w T; cbn in S; try discriminate S.
  repeat (split; [reflexivity | ]).
  intros k I. change (In k [mkTask kid kdue AdvanceOnce]) in I.
  destruct I as [<- | []]. unfold fire. cbn [task_cb].
  rewrite advanceToNextSession_sessionType, advanceToNextSession_timeRemaining.
  split; destruct ty; reflexivity.
Qed.

Lemma reset_keeps_the_pending_advance_witness :
  let w := reset (skip (start (newPomodoroTimer None))) in
  (state (timer w), sessionType (timer w), timeRemaining (timer w))
  = (IDLE, WORK, 1500)
  /\ length (pendingAdvances w) = 1%nat
  /\ observe (fun t => (state t, sessionType t, timeRemaining t))
             (advanceClock 1000 w)
     = Some (IDLE, SHORT_BREAK, 300).
Proof.
  cbv zeta.
  destruct (reset_keeps_the_pending_advance
              (skip (start (newPomodoroTimer None))) eq_refl eq_refl)
    as (_ & P & _).
  split; [reflexivity | split; [exact P | reflexivity]].
Defined.

(* ------------------------------------------------------------------ *)
(** ** One COMPLETED snapshot for every counted session *)

Lemma count_emit (ev : list TimerEventData.t) (t : Timer) :
  length (filter isCompletedWork (ev ++ [eventData t]))
  = (length (filter isCompletedWork ev)
     + (if TimerState_eqb (state t) COMPLETED
           && SessionType_eqb (sessionType t) WORK
        then 1 else 0))%nat.
Proof.
  rewrite filter_app, length_app. f_equal.
  cbn [filter]. unfold isCompletedWork, eventData.
  cbn [TimerEventData.state TimerEventData.sessionType].
  now destruct (TimerState_eqb (state t) COMPLETED
                && SessionType_eqb (sessionType t) WORK).
Qed.

Ltac count_events :=
  unfold recordedWorkSessions; timer_steps;
  rewrite ?count_emit;
  cbn [state sessionType TimerState_eqb SessionType_eqb andb].

Lemma recorded_perform (c : Call) (w : World) :
  tidy w = true -> carefulCall c w = true ->
  Z.of_nat (recordedWorkSessions (perform c w))
  - sessionsCompleted (timer (perform c w))
  = Z.of_nat (recordedWorkSessions w) - sessionsCompleted (timer w).
Proof.
  intros T C. tidy_cases w T;
    destruct c; cbn in C; try discriminate C;
    unfold perform, handleStartPauseClick, resume;
    destruct ty; count_events; lia.
Qed.

Lemma recorded_fire (k : Task) (w : World) :
  tidy w = true -> In k (tasks w) ->
  Z.of_nat (recordedWorkSessions (fire k w))
  - sessionsCompleted (timer (fire k w))
  = Z.of_nat (recordedWorkSessions w) - sessionsCompleted (timer w).
Proof.
  intros T I. tidy_cases w T; cbn in I; try contradiction;
    destruct I as [<- | []]; unfold fire, rearm; cbn [task_cb task_id task_due];
    destruct ty; unfold recordedWorkSessions; timer_steps;
    cbv [getNextSessionType sessionType];
    try match goal with
      | |- context [?a <=? 0] => destruct (a <=? 0)
      end;
    try match goal with
      | |- context [autoStartBreaks ?x] => destruct (autoStartBreaks x)
      end;
    try match goal with
      | |- context [JsNum.strictEq ?a ?b] => destruct (JsNum.strictEq a b)
      end;
    count_events; lia.
Qed.

(** Under careful use, from construction on, the events that the statistics
    listener takes for a completed work session (state COMPLETED, type
    WORK) are exactly as many as the sessions the timer has counted: no
    completion is announced twice and none goes unannounced. *)
Theorem every_counted_session_is_announced_once
        (p : option PartialSettings) (w : World) :
  Reaches carefulCall (newPomodoroTimer p) w ->
  Z.of_nat (recordedWorkSessions w) = sessionsCompleted (timer w).
Proof.
  intros R.
  assert (I : tidy w = true
              /\ Z.of_nat (recordedWorkSessions w) - sessionsCompleted (timer w)
                 = 0).
  { induction R as [ | w' c _ (T & E) C | w' k _ (T & E) I | w' t _ IH ].
    - split; [apply tidy_new | destruct p; reflexivity].
    - split; [now apply tidy_perform | ]. now rewrite recorded_perform.
    - split; [now apply tidy_fire | ]. now rewrite recorded_fire.
    - exact IH. }
  lia.
Qed.

Lemma every_counted_session_is_announced_once_witness :
  let w := perform CallClick (newPomodoroTimer None) in
  let w' := fire (mkTask 2 1000 AdvanceOnce) (perform CallSkip w) in
  recordedWorkSessions w' = 1%nat /\ sessionsCompleted (timer w') = 1.
Proof.
  cbv zeta.
  assert (R : Reaches carefulCall (newPomodoroTimer None)
                (fire (mkTask 2 1000 AdvanceOnce)
                      (perform CallSkip
                         (perform CallClick (newPomodoroTimer None))))).
  { apply reach_fire; [ | vm_compute; left; reflexivity].
    repeat (apply reach_call; [ | reflexivity]). apply reach_here. }
  pose proof (every_counted_session_is_announced_once None _ R) as E.
  split; [ | reflexivity].
  apply Nat2Z.inj. rewrite E. reflexivity.
Defined.

(* ------------------------------------------------------------------ *)
(** * The callers of the timer *)

(** ** The clock face *)

Module DisplayFacts.
Import String Ascii.

(** The face that [formatTime] should show for [s] seconds. *)
Definition face (s : Z) : string :=
  String (Display.digit (s / 600))
    (String (Display.digit ((s / 60) mod 10))
       (String ":"%char
          (String (Display.digit ((s mod 60) / 10))
             (String (Display.digit (s mod 10)) EmptyString)))).

Definition faceOk (s : Z) : bool :=
  String.eqb (Display.formatTime s) (face s)
  && match Display.readClock (Display.formatTime s) with
     | Some r => r =? s
     | None => false
     end.

Lemma faceOk_below_100_minutes :
  forallb faceOk (map Z.of_nat (seq 0 (Z.to_nat 6000))) = true.
Proof. vm_compute. reflexivity. Qed.

(** For every time below 100 minutes, [formatTime] shows two digits of
    minutes, a colon and two digits of seconds (five characters), and the
    seconds can be read back from the face: different times never show the
    same face. *)
Theorem formatTime_clock_face (s : Z) :
  0 <= s < 6000 ->
  Display.formatTime s = face s
  /\ String.length (Display.formatTime s) = 5%nat
  /\ Display.readClock (Display.formatTime s) = Some s.
Proof.
  intros R.
  pose proof faceOk_below_100_minutes as All.
  rewrite forallb_forall in All.
  assert (Ok : faceOk s = true).
  { apply All. apply in_map_iff. exists (Z.to_nat s).
    split; [lia | apply in_seq; lia]. }
  unfold faceOk in Ok. apply andb_true_iff in Ok. destruct Ok as (F & C).
  apply String.eqb_eq in F.
  split; [exact F | split].
  - rewrite F. reflexivity.
  - destruct (Display.readClock (Display.formatTime s)) as [r | ];
      [ | discriminate C].
    apply Z.eqb_eq in C. now subst r.
Qed.

Lemma formatTime_clock_face_witness :
  Display.formatTime 1500 = "25:00"%string
  /\ Display.readClock (Display.formatTime 1500) = Some 1500.
Proof.
  destruct (formatTime_clock_face 1500 ltac:(lia)) as (F & _ & C).
  split; [rewrite F; reflexivity | exact C].
Defined.

End DisplayFacts.

(* ------------------------------------------------------------------ *)
(** ** The statistics listener *)

Module StatisticsFacts.
Import String.

(** The work minutes of the calls that announce a completed work session. *)
Fixpoint recordedMinutes (calls : list (Z * Z * TimerEventData.t)) : Z :=
  match calls with
  | [] => 0
  | (_, workDuration, e) :: rest =>
      (if isCompletedWork e then workDuration else 0) + recordedMinutes rest
  end.

Lemma handleTimerUpdate_fields (today : string) (h wd : Z)
      (e : TimerEventData.t) (d : Statistics.DailyStats) :
  let d' := Statistics.handleTimerUpdate today h wd e d in
  Statistics.sessionsCompleted d' = TimerEventData.sessionsCompleted e
  /\ Statistics.date d'
     = (if isCompletedWork e then today else Statistics.date d)
  /\ Statistics.focusTimeMinutes d'
     = (if isCompletedWork e
        then (if String.eqb (Statistics.date d) today
              then Statistics.focusTimeMinutes d else 0) + wd
        else Statistics.focusTimeMinutes d).
Proof.
  cbv zeta.
  unfold Statistics.handleTimerUpdate, Statistics.updateSessionsFromTimer,
    Statistics.recordCompletedSession, isCompletedWork.
  destruct (TimerState_eqb (TimerEventData.state e) COMPLETED
            && SessionType_eqb (TimerEventData.sessionType e) WORK);
    [destruct (String.eqb_spec (Statistics.date d) today) | ];
    cbn [negb Statistics.sessionsCompleted Statistics.date
         Statistics.focusTimeMinutes];
    match goal with
    | |- context [?a =? ?b] => destruct (Z.eqb_spec a b) as [E | N]
    end;
    cbn [negb Statistics.sessionsCompleted Statistics.date
         Statistics.focusTimeMinutes];
    repeat split; auto.
Qed.

(** After the listener has handled an event, the session count it shows is
    the count carried by that event, whatever was loaded or recorded
    before.  Over any series of events on the day of the statistics, the
    focus time grows by the work duration of each event that announces a
    completed work session, and by nothing else. *)
Theorem statistics_follow_the_events
        (today : string) (calls : list (Z * Z * TimerEventData.t))
        (d : Statistics.DailyStats) :
  Statistics.date d = today ->
  Statistics.date (Statistics.replay today calls d) = today
  /\ Statistics.focusTimeMinutes (Statistics.replay today calls d)
     = Statistics.focusTimeMinutes d + recordedMinutes calls
  /\ forall before h wd e,
       calls = before ++ [(h, wd, e)] ->
       Statistics.sessionsCompleted (Statistics.replay today calls d)
       = TimerEventData.sessionsCompleted e.
Proof.
  revert d. induction calls as [ | [[h wd] e] rest IH]; intros d D.
  - cbn. repeat split; try lia; try assumption.
    intros [ | ? ?] ? ? ? E; discriminate E.
  - cbn [Statistics.replay recordedMinutes].
    destruct (handleTimerUpdate_fields today h wd e d) as (S1 & D1 & F1).
    assert (D' : Statistics.date (Statistics.handleTimerUpdate today h wd e d)
                 = today).
    { rewrite D1. now destruct (isCompletedWork e). }
    destruct (IH _ D') as (Da & Fo & La).
    split; [exact Da | split].
    + rewrite Fo, F1, D, String.eqb_refl.
      destruct (isCompletedWork e); lia.
    + intros before h' wd' e' E.
      destruct rest as [ | c rest'].
      * destruct before as [ | ? [ | ? ?]]; try discriminate E.
        injection E as -> -> ->. cbn [Statistics.replay]. exact S1.
      * destruct before as [ | b before']; [discriminate E | ].
        injection E as _ E. now apply (La before' h' wd' e').
Qed.

Lemma statistics_follow_the_events_witness :
  let today := "2026-11-03"%string in
  let loaded := Statistics.mkDailyStats today 5 125 2 in
  let started := TimerEventData.mk 1500 WORK RUNNING 0 (Some 0%Q) in
  let finished := TimerEventData.mk 0 WORK COMPLETED 1 (Some 100%Q) in
  let d := Statistics.replay today [(2, 25, started); (2, 25, finished)] loaded in
  Statistics.focusTimeMinutes d = 150
  /\ Statistics.sessionsCompleted d = 1.
Proof.
  cbv zeta.
  destruct (statistics_follow_the_events
              "2026-11-03"%string
              [(2, 25, TimerEventData.mk 1500 WORK RUNNING 0 (Some 0%Q));
               (2, 25, TimerEventData.mk 0 WORK COMPLETED 1 (Some 100%Q))]
              (Statistics.mkDailyStats "2026-11-03"%string 5 125 2) eq_refl)
    as (_ & F & L).
  split.
  - rewrite F. reflexivity.
  - apply (L [(2, 25, TimerEventData.mk 1500 WORK RUNNING 0 (Some 0%Q))]
             2 25 (TimerEventData.mk 0 WORK COMPLETED 1 (Some 100%Q))).
    reflexivity.
Defined.

End StatisticsFacts.

(* ------------------------------------------------------------------ *)
(** ** The settings form *)

(** A number field whose bounds are numbers, the lower one at least [lo]
    and not above the upper one. *)
Definition bounded (lo : Z) (input : SettingsManager.Input) : Prop :=
  exists a b,
    SettingsManager.min input = Some a
    /\ SettingsManager.max input = Some b
    /\ lo <= a <= b.

(** What [validateInput] leaves in a field whose bounds are numbers in
    order. *)
Lemma validateInput_result (v : option Z) (a b : Z) :
  a <= b ->
  SettingsManager.validateInput (SettingsManager.mkInput v (Some a) (Some b))
  = SettingsManager.mkInput
      (Some match v with
            | Some x => if x <? a then a else if b <? x then b else x
            | None => a
            end)
      (Some a) (Some b).
Proof.
  intros L.
  unfold SettingsManager.validateInput, SettingsManager.gt, SettingsManager.lt,
    SettingsManager.isNaN.
  cbn [SettingsManager.value SettingsManager.min SettingsManager.max].
  destruct v as [x | ]; cbn [orb]; [ | reflexivity].
  destruct (Z.ltb_spec x a); [reflexivity | ].
  destruct (Z.ltb_spec b x); reflexivity.
Qed.

(** When the bounds of a field are numbers in order, [validateInput] leaves
    a number between them: what is not a number or lies below the lower
    bound becomes the lower bound, what lies above the upper bound becomes
    the upper bound, and what lies in between is left alone.  The bounds
    are kept, and validating again changes nothing. *)
Theorem validateInput_clamps (input : SettingsManager.Input) (a b : Z) :
  SettingsManager.min input = Some a ->
  SettingsManager.max input = Some b ->
  a <= b ->
  let out := SettingsManager.validateInput input in
  (exists v, SettingsManager.value out = Some v /\ a <= v <= b)
  /\ (forall v, SettingsManager.value input = Some v -> a <= v <= b ->
                out = input)
  /\ (SettingsManager.value input = None -> SettingsManager.value out = Some a)
  /\ (forall v, SettingsManager.value input = Some v -> v < a ->
                SettingsManager.value out = Some a)
  /\ (forall v, SettingsManager.value input = Some v -> b < v ->
                SettingsManager.value out = Some b)
  /\ SettingsManager.min out = Some a
  /\ SettingsManager.max out = Some b
  /\ SettingsManager.validateInput out = out.
Proof.
  intros Mi Ma L. cbv zeta.
  destruct input as [v mi ma]. cbn in Mi, Ma. subst mi ma.
  rewrite !validateInput_result by exact L.
  cbn [SettingsManager.value SettingsManager.min SettingsManager.max].
  split; [ | split; [ | split; [ | split; [ | split; [ | split; [ | split]]]]]].
  - eexists. split; [reflexivity | ].
    destruct v as [x | ]; [ | lia].
    destruct (Z.ltb_spec x a); [lia | ]. destruct (Z.ltb_spec b x); lia.
  - intros x E R. subst v.
    destruct (Z.ltb_spec x a); [lia | ]. destruct (Z.ltb_spec b x); [lia | ].
    reflexivity.
  - intros ->. reflexivity.
  - intros x E Lo. subst v.
    destruct (Z.ltb_spec x a); [reflexivity | lia].
  - intros x E Hi. subst v.
    destruct (Z.ltb_spec x a); [lia | ].
    destruct (Z.ltb_spec b x); [reflexivity | lia].
  - reflexivity.
  - reflexivity.
  - f_equal. f_equal.
    destruct v as [x | ].
    + destruct (Z.ltb_spec x a) as [Lo | Lo].
      * destruct (Z.ltb_spec a a); [lia | ].
        destruct (Z.ltb_spec b a); [lia | reflexivity].
      * destruct (Z.ltb_spec b x) as [Hi | Hi].
        -- destruct (Z.ltb_spec b a); [lia | ].
           destruct (Z.ltb_spec b b); [lia | reflexivity].
        -- destruct (Z.ltb_spec x a); [lia | ].
           destruct (Z.ltb_spec b x); [lia | reflexivity].
    + destruct (Z.ltb_spec a a); [lia | ].
      destruct (Z.ltb_spec b a); [lia | reflexivity].
Qed.

Lemma validateInput_clamps_witness :
  let field (v : option Z) := SettingsManager.mkInput v (Some 1) (Some 60) in
  SettingsManager.value (SettingsManager.validateInput (field (Some 0))) = Some 1
  /\ SettingsManager.value (SettingsManager.validateInput (field (Some 90))) = Some 60
  /\ SettingsManager.value (SettingsManager.validateInput (field None)) = Some 1
  /\ SettingsManager.validateInput (field (Some 25)) = field (Some 25).
Proof.
  cbv zeta.
  pose proof (fun v => validateInput_clamps
                         (SettingsManager.mkInput v (Some 1) (Some 60))
                         1 60 eq_refl eq_refl ltac:(lia)) as C.
  split; [ | split; [ | split]].
  - destruct (C (Some 0)) as (_ & _ & _ & Below & _).
    apply (Below 0); [reflexivity | lia].
  - destruct (C (Some 90)) as (_ & _ & _ & _ & Above & _).
    apply (Above 90); [reflexivity | lia].
  - destruct (C None) as (_ & _ & NaN & _). apply NaN. reflexivity.
  - destruct (C (Some 25)) as (_ & Keep & _).
    apply (Keep 25); [reflexivity | lia].
Defined.

Lemma validateInput_bounded (input : SettingsManager.Input) :
  bounded 1 input ->
  exists v,
    SettingsManager.value (SettingsManager.validateInput input) = Some v
    /\ 1 <= v.
Proof.
  intros (a & b & Mi & Ma & L).
  destruct (validateInput_clamps input a b Mi Ma ltac:(lia)) as ((v & E & R) & _).
  exists v. split; [exact E | lia].
Qed.

(** When the three duration fields have numeric bounds with a lower bound
    of at least 1, [saveAndApplySettings] hands the timer valid settings
    whatever was typed: all durations at least 1, the check boxes as they
    are, and [sessionsUntilLongBreak] put back to the default 4 whatever
    the timer held before.  An IDLE timer shows the new duration at once; in
    any other state the remaining time is left alone. *)
Theorem saveAndApplySettings_hands_over_valid_settings
        (f : SettingsManager.Form) (w : World) :
  bounded 1 (SettingsManager.workDurationInput f) ->
  bounded 1 (SettingsManager.shortBreakInput f) ->
  bounded 1 (SettingsManager.longBreakInput f) ->
  exists w',
    snd (SettingsManager.saveAndApplySettings f w) = Some w'
    /\ validSettings (settings (timer w'))
    /\ sessionsUntilLongBreak (settings (timer w')) = 4
    /\ autoStartBreaks (settings (timer w')) = SettingsManager.autoStartInput f
    /\ soundEnabled (settings (timer w')) = SettingsManager.soundEnabledInput f
    /\ timeRemaining (timer w')
       = (if TimerState_eqb (state (timer w)) IDLE
          then durationOf (settings (timer w')) (sessionType (timer w)) * 60
          else timeRemaining (timer w))
    /\ state (timer w') = state (timer w).
Proof.
  intros Bw Bs Bl.
  destruct (validateInput_bounded _ Bw) as (vw & Ew & Lw).
  destruct (validateInput_bounded _ Bs) as (vs & Es & Ls).
  destruct (validateInput_bounded _ Bl) as (vl & El & Ll).
  unfold SettingsManager.saveAndApplySettings, SettingsManager.readSettings.
  cbn [snd SettingsManager.workDurationInput SettingsManager.shortBreakInput
       SettingsManager.longBreakInput SettingsManager.autoStartInput
       SettingsManager.soundEnabledInput].
  rewrite Ew, Es, El. cbn [option_map].
  eexists. split; [reflexivity | ].
  rewrite updateSettings_settings.
  unfold SettingsManager.toPartial, spread, validSettings.
  cbn [orKeep p_workDuration p_shortBreak p_longBreak p_sessionsUntilLongBreak
       p_autoStartBreaks p_soundEnabled workDuration shortBreak longBreak
       sessionsUntilLongBreak autoStartBreaks soundEnabled DEFAULT_SETTINGS].
  repeat (split; [lia || reflexivity | ]).
  destruct w as [[tr ty st sc iid s] nw nid tk ev].
  destruct st, ty; split; reflexivity.
Qed.

Lemma saveAndApplySettings_hands_over_valid_settings_witness :
  let field (v : option Z) := SettingsManager.mkInput v (Some 1) (Some 60) in
  let f := SettingsManager.mkForm (field (Some 0)) (field None) (field (Some 90))
                                  true false in
  let odd := mkPartial None None None (Some 7) None None in
  exists w',
    snd (SettingsManager.saveAndApplySettings f (newPomodoroTimer (Some odd)))
    = Some w'
    /\ settings (timer w') = mkSettings 1 1 60 4 true false
    /\ timeRemaining (timer w') = 60.
Proof.
  cbv zeta.
  assert (B : forall v, bounded 1 (SettingsManager.mkInput v (Some 1) (Some 60))).
  { intros v. exists 1, 60. repeat split; lia. }
  destruct (saveAndApplySettings_hands_over_valid_settings
              (SettingsManager.mkForm
                 (SettingsManager.mkInput (Some 0) (Some 1) (Some 60))
                 (SettingsManager.mkInput None (Some 1) (Some 60))
                 (SettingsManager.mkInput (Some 90) (Some 1) (Some 60))
                 true false)
              (newPomodoroTimer (Some (mkPartial None None None (Some 7) None None)))
              (B _) (B _) (B _))
    as (w' & Run & _).
  exists w'. split; [exact Run | ].
  vm_compute in Run. injection Run as <-. split; reflexivity.
Defined.

(* ------------------------------------------------------------------ *)
(** * The task list *)

Module TodoFacts.
Import TodoStorage.

Lemma filter_split_length {A : Type} (f : A -> bool) (l : list A) :
  length l = (length (filter f l) + length (filter (fun x => negb (f x)) l))%nat.
Proof.
  induction l as [ | x l IH]; [reflexivity | ].
  cbn [filter]. destruct (f x); cbn [negb length]; lia.
Qed.

(** The three numbers of [getTodoCount] add up and agree with the lists
    that [getActiveTodos] and [getCompletedTodos] return: every task is
    either active or completed, never both, never neither. *)
Theorem todo_counts_add_up (st : Store) :
  let c := getTodoCount st in
  total c = active c + completedCount c
  /\ total c = Z.of_nat (length (getTodos st))
  /\ active c = Z.of_nat (length (getActiveTodos st))
  /\ completedCount c = Z.of_nat (length (getCompletedTodos st))
  /\ 0 <= active c /\ 0 <= completedCount c.
Proof.
  cbv zeta. unfold getTodoCount, getTodos, getActiveTodos, getCompletedTodos.
  cbn [total active completedCount].
  pose proof (filter_split_length completed (memory st)).
  repeat split; lia.
Qed.

(** ** Toggling *)

Lemma forallb_negb_existsb {A : Type} (f : A -> bool) (l : list A) :
  forallb (fun t => negb (f t)) l = negb (existsb f l).
Proof.
  induction l as [ | x l IH]; [reflexivity | ].
  cbn [forallb existsb]. rewrite IH. now destruct (f x).
Qed.

Lemma changeFirst_none (test : TodoItem -> bool) (f : TodoItem -> TodoItem)
      (l : list TodoItem) :
  changeFirst test f l = None <-> forallb (fun t => negb (test t)) l = true.
Proof.
  induction l as [ | t l IH]; cbn [changeFirst forallb]; [tauto | ].
  destruct (test t); cbn [negb andb].
  - split; discriminate.
  - destruct (changeFirst test f l) as [[t' l'] | ].
    + split; [discriminate | ]. intros H. apply IH in H. discriminate H.
    + split; [intros _; now apply IH | reflexivity].
Qed.

Lemma changeFirst_shape (test : TodoItem -> bool) (f : TodoItem -> TodoItem)
      (l l' : list TodoItem) (t' : TodoItem) :
  changeFirst test f l = Some (t', l') ->
  exists before t after,
    l = before ++ t :: after
    /\ l' = before ++ f t :: after
    /\ t' = f t
    /\ test t = true
    /\ forallb (fun x => negb (test x)) before = true.
Proof.
  revert l' t'. induction l as [ | x l IH]; intros l' t' H;
    cbn [changeFirst] in H; [discriminate H | ].
  destruct (test x) eqn:Tx.
  - injection H as <- <-. exists [], x, l. repeat split. exact Tx.
  - destruct (changeFirst test f l) as [[t1 l1] | ]; [ | discriminate H].
    injection H as <- <-.
    destruct (IH l1 t1 eq_refl) as (b & t & a & -> & -> & -> & Tt & Nb).
    exists (x :: b), t, a. repeat split; try assumption.
    cbn [forallb]. now rewrite Tx, Nb.
Qed.

Lemma changeFirst_found (test : TodoItem -> bool) (f : TodoItem -> TodoItem)
      (before after : list TodoItem) (t : TodoItem) :
  forallb (fun x => negb (test x)) before = true ->
  test t = true ->
  changeFirst test f (before ++ t :: after)
  = Some (f t, before ++ f t :: after).
Proof.
  intros Nb Tt. induction before as [ | x b IH]; cbn [app changeFirst].
  - now rewrite Tt.
  - cbn [forallb] in Nb. apply andb_true_iff in Nb. destruct Nb as (Nx & Nb).
    apply negb_true_iff in Nx. rewrite Nx, (IH Nb). reflexivity.
Qed.

(** Whenever a task has the given identifier, [toggleTodo] flips the first
    such task and nothing else; a second call undoes the first; the number
    of tasks never changes.  It answers [null] only when no task has the
    identifier, and then nothing happens and nothing is written. *)
Theorem toggleTodo_flips_one_task (i : JsString) (t1 t2 : Z) (st : Store) :
  (forallb (fun t => negb (hasId i t)) (memory st) = true ->
   toggleTodo i t1 st = (None, st))
  /\ (forall todo st',
        toggleTodo i t1 st = (Some todo, st') ->
        exists before t after,
          memory st = before ++ t :: after
          /\ memory st' = before ++ todo :: after
          /\ hasId i t = true
          /\ forallb (fun x => negb (hasId i x)) before = true
          /\ id todo = id t /\ text todo = text t
          /\ completed todo = negb (completed t)
          /\ length (memory st') = length (memory st)
          /\ memory (snd (toggleTodo i t2 st')) = memory st)
  /\ (existsb (hasId i) (memory st) = true ->
      exists todo st', toggleTodo i t1 st = (Some todo, st'))
  /\ (fst (toggleTodo i t1 st) = None ->
      forallb (fun t => negb (hasId i t)) (memory st) = true).
Proof.
  unfold toggleTodo. split; [ | split; [ | split]];
    [ | | intros Ex;
          destruct (changeFirst _ _ (memory st)) as [[t' l'] | ] eqn:C;
          [eexists; eexists; reflexivity | ];
          apply changeFirst_none in C;
          rewrite forallb_negb_existsb, Ex in C; discriminate C
        | destruct (changeFirst _ _ (memory st)) as [[t' l'] | ] eqn:C;
          cbn [fst]; [discriminate | intros _; now apply changeFirst_none in C]].
  - intros No.
    apply (changeFirst_none (hasId i)
             (fun t => mkTodo (id t) (text t) (negb (completed t)) (createdAt t)))
      in No.
    now rewrite No.
  - intros todo st' H.
    destruct (changeFirst _ _ (memory st)) as [[t' l'] | ] eqn:C;
      [ | discriminate H].
    injection H as <- <-.
    destruct (changeFirst_shape _ _ _ _ _ C)
      as (before & t & after & M & -> & -> & Tt & Nb).
    exists before, t, after. rewrite M.
    cbn [memory saveTodos setMemory id text completed].
    repeat split; try assumption.
    + rewrite !length_app. reflexivity.
    + rewrite changeFirst_found; [ | exact Nb | exact Tt].
      cbn [snd memory saveTodos setMemory id text completed createdAt].
      rewrite negb_involutive. now destruct t.
Qed.

Lemma toggleTodo_flips_one_task_witness :
  let a := mkTodo [97%N] [98%N] false 10 in
  let b := mkTodo [99%N] [100%N] true 20 in
  let st := mkStore [a; b] Absent Absent in
  toggleTodo [120%N] 30 st = (None, st)
  /\ memory (snd (toggleTodo [99%N] 30 st)) = [a; mkTodo [99%N] [100%N] false 20]
  /\ memory (snd (toggleTodo [99%N] 40 (snd (toggleTodo [99%N] 30 st)))) = [a; b].
Proof.
  cbv zeta. split; [ | split; [reflexivity | ]].
  - apply (proj1 (toggleTodo_flips_one_task [120%N] 30 30 _)). reflexivity.
  - destruct (proj1 (proj2 (toggleTodo_flips_one_task [99%N] 30 40
                       (mkStore [mkTodo [97%N] [98%N] false 10;
                                 mkTodo [99%N] [100%N] true 20] Absent Absent)))
                    _ _ eq_refl)
      as (_ & _ & _ & _ & _ & _ & _ & _ & _ & _ & _ & Back).
    exact Back.
Defined.

(** ** Deleting *)

Lemma removeFirst_none (test : TodoItem -> bool) (l : list TodoItem) :
  removeFirst test l = None <-> forallb (fun t => negb (test t)) l = true.
Proof.
  induction l as [ | t l IH]; cbn [removeFirst forallb]; [tauto | ].
  destruct (test t); cbn [negb andb].
  - split; discriminate.
  - destruct (removeFirst test l); cbn [option_map].
    + split; [discriminate | ]. intros H. apply IH in H. discriminate H.
    + split; [intros _; now apply IH | reflexivity].
Qed.

Lemma removeFirst_shape (test : TodoItem -> bool) (l l' : list TodoItem) :
  removeFirst test l = Some l' ->
  exists before t after,
    l = before ++ t :: after
    /\ l' = before ++ after
    /\ test t = true
    /\ forallb (fun x => negb (test x)) before = true.
Proof.
  revert l'. induction l as [ | x l IH]; intros l' H;
    cbn [removeFirst] in H; [discriminate H | ].
  destruct (test x) eqn:Tx.
  - injection H as <-. exists [], x, l. repeat split. exact Tx.
  - destruct (removeFirst test l) as [l1 | ]; [ | discriminate H].
    injection H as <-.
    destruct (IH l1 eq_refl) as (b & t & a & -> & -> & Tt & Nb).
    exists (x :: b), t, a. repeat split; try assumption.
    cbn [forallb]. now rewrite Tx, Nb.
Qed.

(** [deleteTodo] removes exactly the first task with the given identifier,
    keeps all the others in their order and answers [true]; when no task has
    the identifier it answers [false] and leaves the list and both storages
    untouched. *)
Theorem deleteTodo_removes_one_task (i : JsString) (now : Z) (st : Store) :
  (forallb (fun t => negb (hasId i t)) (memory st) = true ->
   deleteTodo i now st = (false, st))
  /\ (forall st',
        deleteTodo i now st = (true, st') ->
        exists before t after,
          memory st = before ++ t :: after
          /\ memory st' = before ++ after
          /\ hasId i t = true
          /\ forallb (fun x => negb (hasId i x)) before = true
          /\ S (length (memory st')) = length (memory st))
  /\ (fst (deleteTodo i now st) = false ->
      forallb (fun t => negb (hasId i t)) (memory st) = true).
Proof.
  unfold deleteTodo. split; [ | split].
  - intros No. apply removeFirst_none in No. now rewrite No.
  - intros st' H.
    destruct (removeFirst (hasId i) (memory st)) as [l' | ] eqn:R;
      [ | discriminate H].
    injection H as <-.
    destruct (removeFirst_shape _ _ _ R) as (before & t & after & M & -> & Tt & Nb).
    exists before, t, after. rewrite M.
    cbn [memory saveTodos setMemory].
    repeat split; try assumption.
    rewrite !length_app. cbn [length]. lia.
  - destruct (removeFirst (hasId i) (memory st)) eqn:R; cbn [fst].
    + discriminate.
    + intros _. now apply removeFirst_none.
Qed.

Lemma deleteTodo_removes_one_task_witness :
  let a := mkTodo [97%N] [98%N] false 10 in
  let b := mkTodo [99%N] [100%N] true 20 in
  let st := mkStore [a; b; a] Absent Absent in
  deleteTodo [120%N] 30 st = (false, st)
  /\ exists before t after,
       memory st = before ++ t :: after
       /\ memory (snd (deleteTodo [97%N] 30 st)) = before ++ after
       /\ before = [].
Proof.
  cbv zeta. split.
  - apply (proj1 (deleteTodo_removes_one_task [120%N] 30 _)). reflexivity.
  - destruct (proj1 (proj2 (deleteTodo_removes_one_task [97%N] 30
                (mkStore [mkTodo [97%N] [98%N] false 10;
                          mkTodo [99%N] [100%N] true 20;
                          mkTodo [97%N] [98%N] false 10] Absent Absent)))
                _ eq_refl)
      as (before & t & after & M & M' & Tt & Nb & _).
    exists before, t, after. split; [exact M | split; [exact M' | ]].
    destruct before as [ | x before]; [reflexivity | ].
    cbn in M. injection M as <- _. cbn in Nb. discriminate Nb.
Defined.

(** ** Clearing the completed tasks *)

Lemma filter_filter_neg {A : Type} (f : A -> bool) (l : list A) :
  filter f (filter (fun x => negb (f x)) l) = []
  /\ filter (fun x => negb (f x)) (filter (fun x => negb (f x)) l)
     = filter (fun x => negb (f x)) l.
Proof.
  induction l as [ | x l (IH1 & IH2)]; [split; reflexivity | ].
  cbn [filter]. destruct (f x) eqn:Fx; cbn [negb filter].
  - split; assumption.
  - rewrite Fx. cbn [negb]. split; [exact IH1 | now rewrite IH2].
Qed.

(** [clearCompleted] answers the number of completed tasks it found, leaves
    no completed task behind and keeps the active ones as they were, in
    their order; the new total is the old number of active tasks. *)
Theorem clearCompleted_keeps_the_active_tasks (now : Z) (st : Store) :
  let cleared := fst (clearCompleted now st) in
  let st' := snd (clearCompleted now st) in
  cleared = completedCount (getTodoCount st)
  /\ getCompletedTodos st' = []
  /\ getActiveTodos st' = getActiveTodos st
  /\ getTodos st' = getActiveTodos st
  /\ total (getTodoCount st') = active (getTodoCount st)
  /\ total (getTodoCount st') = total (getTodoCount st) - cleared.
Proof.
  cbv zeta. unfold clearCompleted, getCompletedTodos, getActiveTodos, getTodos,
    getTodoCount.
  cbn [fst snd memory saveTodos setMemory total active completedCount].
  destruct (filter_filter_neg completed (memory st)) as (F1 & F2).
  pose proof (filter_split_length completed (memory st)).
  repeat split; try assumption; lia.
Qed.

(** ** What survives a reload *)

(** Both storages hold the list in memory, good until [until]. *)
Definition persisted (until : Z) (st : Store) : Prop :=
  sessionSlot st = Saved (mkData (memory st) until)
  /\ localSlot st = Saved (mkData (memory st) until).

Lemma saveTodos_persisted (now : Z) (st : Store) :
  persisted (now + CACHE_DURATION) (saveTodos now st).
Proof. split; reflexivity. Qed.

(** Every operation that changes the list writes it to both storages with
    an expiry 24 hours later.  Loading again in the same tab gives the list
    back at any later time; in a new tab (empty session storage) the list
    comes back as long as the expiry has not passed, is copied to the
    session storage with a fresh expiry and removed from the local storage;
    once the expiry has passed, the list is gone and both storages are
    emptied. *)
Theorem todos_survive_a_reload_for_a_day
        (newId text : JsString) (now later : Z) (st : Store) :
  let st' := snd (addTodo newId now text st) in
  persisted (now + 24 * 60 * 60 * 1000) st'
  /\ persisted (now + 24 * 60 * 60 * 1000) (clearAll now st)
  /\ persisted (now + 24 * 60 * 60 * 1000) (snd (clearCompleted now st))
  /\ memory (loadTodos later (sessionSlot st') (localSlot st')) = memory st'
  /\ (later <= now + 24 * 60 * 60 * 1000 ->
      loadTodos later Absent (localSlot st')
      = mkStore (memory st')
                (Saved (mkData (memory st') (later + 24 * 60 * 60 * 1000)))
                Absent)
  /\ (now + 24 * 60 * 60 * 1000 < later ->
      loadTodos later Absent (localSlot st') = mkStore [] Absent Absent).
Proof.
  cbv zeta. unfold addTodo, clearAll, clearCompleted.
  cbn [snd].
  change (24 * 60 * 60 * 1000) with CACHE_DURATION.
  repeat (split; [apply saveTodos_persisted || reflexivity | ]).
  unfold loadTodos, saveTodos.
  cbn [localSlot sessionSlot memory setMemory expiresAt todos].
  split; intros L.
  - destruct (Z.gtb_spec later (now + CACHE_DURATION)); [lia | reflexivity].
  - destruct (Z.gtb_spec later (now + CACHE_DURATION)); [reflexivity | lia].
Qed.

Lemma todos_survive_a_reload_for_a_day_witness :
  let st := snd (addTodo [49%N] 1000 [32%N; 97%N; 32%N]
                         (mkStore [] Absent Absent)) in
  memory (loadTodos 86401000 Absent (localSlot st))
  = [mkTodo [49%N] [97%N] false 1000]
  /\ loadTodos 86401001 Absent (localSlot st) = mkStore [] Absent Absent.
Proof.
  cbv zeta.
  destruct (todos_survive_a_reload_for_a_day
              [49%N] [32%N; 97%N; 32%N] 1000 86401000 (mkStore [] Absent Absent))
    as (_ & _ & _ & _ & In & _).
  destruct (todos_survive_a_reload_for_a_day
              [49%N] [32%N; 97%N; 32%N] 1000 86401001 (mkStore [] Absent Absent))
    as (_ & _ & _ & _ & _ & Out).
  split.
  - rewrite In by lia. reflexivity.
  - apply Out. lia.
Defined.

(** ** Adding a task *)

Definition startsClean (s : JsString) : Prop :=
  match s with
  | c :: _ => isWhiteSpace c = false
  | [] => True
  end.

Lemma trimStart_clean (s : JsString) : startsClean (trimStart s).
Proof.
  induction s as [ | c s IH]; cbn [trimStart]; [exact I | ].
  destruct (isWhiteSpace c) eqn:W; [exact IH | exact W].
Qed.

Lemma trimStart_fixed (s : JsString) : startsClean s -> trimStart s = s.
Proof.
  destruct s as [ | c s]; cbn; [reflexivity | ]. now intros ->.
Qed.

Lemma trimStart_suffix (s : JsString) :
  exists dropped,
    s = dropped ++ trimStart s /\ forallb isWhiteSpace dropped = true.
Proof.
  induction s as [ | c s (d & E & W)]; [exists []; split; reflexivity | ].
  cbn [trimStart]. destruct (isWhiteSpace c) eqn:Wc.
  - exists (c :: d). cbn [app forallb]. rewrite Wc, W. split; [ | reflexivity].
    now rewrite <- E.
  - exists []. split; reflexivity.
Qed.

(** The end of a list that starts clean stays in place when white space is
    stripped from the reversed list. *)
Lemma trimStart_rev_clean (s : JsString) :
  startsClean s -> startsClean (rev (trimStart (rev s))).
Proof.
  destruct s as [ | c s]; [intros _; exact I | ].
  cbn [startsClean]. intros C.
  destruct (trimStart_suffix (rev (c :: s))) as (d & E & W).
  assert (R : rev (trimStart (rev (c :: s))) ++ rev d = c :: s).
  { rewrite <- rev_app_distr, <- E. apply rev_involutive. }
  destruct (rev (trimStart (rev (c :: s)))) as [ | x r] eqn:T.
  - cbn [app] in R.
    assert (In c d) by (apply in_rev; rewrite R; left; reflexivity).
    rewrite forallb_forall in W. rewrite (W c) in C; [discriminate C | assumption].
  - cbn [app] in R. injection R as -> _. exact C.
Qed.

Lemma trim_clean (s : JsString) :
  startsClean (trim s) /\ startsClean (rev (trim s)) /\ trim (trim s) = trim s.
Proof.
  unfold trim.
  pose proof (trimStart_rev_clean _ (trimStart_clean s)) as Front.
  pose proof (trimStart_clean (rev (trimStart s))) as Back.
  split; [exact Front | split].
  - now rewrite rev_involutive.
  - rewrite (trimStart_fixed _ Front), rev_involutive.
    now rewrite (trimStart_fixed _ Back).
Qed.

(** [handleAddTodo] stores a task exactly when the trimmed input is not
    empty and has at most 200 code units.  The task stored then is the
    first of the list, not completed, stamped with the current time, and
    its text is the trimmed input: no white space at either end.  The tasks
    that were there follow unchanged. *)
Theorem handleAddTodo_stores_trimmed_text
        (newId input : JsString) (now : Z) (st : Store) :
  let text := trim input in
  (text = [] ->
   TodoList.handleAddTodo newId now input st = TodoList.PleaseEnterATask)
  /\ ((200 < length text)%nat ->
      TodoList.handleAddTodo newId now input st = TodoList.TaskIsTooLong)
  /\ (text <> [] -> (length text <= 200)%nat ->
      exists st',
        TodoList.handleAddTodo newId now input st = TodoList.Added st'
        /\ memory st' = mkTodo newId text false now :: memory st
        /\ startsClean text /\ startsClean (rev text)
        /\ persisted (now + 24 * 60 * 60 * 1000) st').
Proof.
  cbv zeta. unfold TodoList.handleAddTodo.
  destruct (trim_clean input) as (Front & Back & Idem).
  split; [ | split].
  - now intros ->.
  - intros Long. destruct (trim input) as [ | c r] eqn:T; [cbn in Long; lia | ].
    destruct (Nat.ltb_spec 200 (length (c :: r))); [reflexivity | lia].
  - intros Ne Short. destruct (trim input) as [ | c r] eqn:T; [congruence | ].
    destruct (Nat.ltb_spec 200 (length (c :: r))); [lia | ].
    eexists. split; [reflexivity | ].
    unfold addTodo. cbn [snd memory saveTodos setMemory].
    rewrite Idem.
    split; [reflexivity | split; [exact Front | split; [exact Back | ]]].
    split; reflexivity.
Qed.

Lemma handleAddTodo_stores_trimmed_text_witness :
  let st := mkStore [] Absent Absent in
  TodoList.handleAddTodo [49%N] 5 [32%N; 9%N] st = TodoList.PleaseEnterATask
  /\ exists st',
       TodoList.handleAddTodo [49%N] 5 [32%N; 97%N; 98%N; 10%N] st
       = TodoList.Added st'
       /\ memory st' = [mkTodo [49%N] [97%N; 98%N] false 5].
Proof.
  cbv zeta. split.
  - apply (proj1 (handleAddTodo_stores_trimmed_text
                    [49%N] [32%N; 9%N] 5 (mkStore [] Absent Absent))).
    reflexivity.
  - destruct (proj2 (proj2 (handleAddTodo_stores_trimmed_text
                [49%N] [32%N; 97%N; 98%N; 10%N] 5 (mkStore [] Absent Absent))))
      as (st' & Run & M & _).
    + vm_compute. discriminate.
    + vm_compute. lia.
    + exists st'. split; [exact Run | exact M].
Defined.

End TodoFacts.

(* ------------------------------------------------------------------ *)
(** * The session history *)

(** [saveSessionRecord] stores the new record last and keeps at most the
    100 most recent records, in their order: what it stores is the end of
    the extended history, all of it as long as that has at most 100
    records. *)
Theorem saveSessionRecord_keeps_the_last_100
        {A : Type} (session : A) (existing : list A) :
  let stored := StorageManager.saveSessionRecord session existing in
  length stored = Nat.min 100 (S (length existing))
  /\ last stored session = session
  /\ (exists dropped,
        existing ++ [session] = dropped ++ stored
        /\ length dropped = (S (length existing) - 100)%nat)
  /\ ((length existing < 100)%nat -> stored = existing ++ [session]).
Proof.
  cbv zeta. unfold StorageManager.saveSessionRecord, StorageManager.sliceLast.
  rewrite length_app. cbn [length]. rewrite Nat.add_1_r.
  set (n := (S (length existing) - 100)%nat).
  assert (Ln : (n <= length existing)%nat) by (subst n; lia).
  split; [rewrite length_skipn, length_app; cbn [length]; lia | split; [ | split]].
  - rewrite skipn_app.
    replace (n - length existing)%nat with 0%nat by lia.
    cbn [skipn]. apply last_last.
  - exists (firstn n (existing ++ [session])).
    split; [now rewrite firstn_skipn | ].
    rewrite length_firstn, length_app. cbn [length]. lia.
  - intros Short. replace n with 0%nat by (subst n; lia). reflexivity.
Qed.

Lemma saveSessionRecord_keeps_the_last_100_witness :
  StorageManager.saveSessionRecord 7 [1; 2; 3] = [1; 2; 3; 7]
  /\ length (StorageManager.saveSessionRecord 0 (repeat 1 100)) = 100%nat.
Proof.
  split.
  - apply (proj2 (proj2 (proj2 (saveSessionRecord_keeps_the_last_100 7 [1; 2; 3])))).
    cbn. lia.
  - rewrite (proj1 (saveSessionRecord_keeps_the_last_100 0 (repeat 1 100))).
    rewrite repeat_length. reflexivity.
Defined.
